(** * Identity-token verifiers of ai_cal

    A shallow embedding of [utils/appleTokenVerifier.js] and
    [utils/googleTokenVerifier.js].

    Both verifiers are [async] functions whose body is one [try]/[catch].
    They talk to the outside through [axios.get], [jwt.verify],
    [jwkToPem], [JSON.parse], [Buffer.from], [process.env] and [logger].
    The outside is a record of oracles ([World]); a run of a verifier is a
    pair of the events it emitted (log lines, network calls, calls of the
    cryptographic primitives) and its completion: a returned value or a
    thrown error. *)

From Stdlib Require Import ZArith Bool List Ascii String Lia.
From stdpp Require Import base option strings gmap.
Import ListNotations.

Local Open Scope string_scope.
Local Open Scope Z_scope.

Set Warnings "-register-all".

(** ** JavaScript values *)

(** The values that flow through the verifiers: what [JSON.parse] produces,
    [undefined], and the built-in methods that a property read can return
    ([JFun], identified by its name, with its [length]).  JSON numbers are
    only ever tested for truthiness or compared with [===], so they are
    kept as integers. *)
Inductive JSVal : Type :=
| JUndefined
| JNull
| JBool (b : bool)
| JNum (n : Z)
| JStr (s : string)
| JArr (elems : list JSVal)
| JObj (fields : list (string * JSVal))
| JFun (name : string) (arity : Z).

(** ToBoolean. *)
Definition truthy (v : JSVal) : bool :=
  match v with
  | JUndefined | JNull => false
  | JBool b => b
  | JNum n => negb (n =? 0)
  | JStr s => negb (s =? "")%string
  | JArr _ | JObj _ | JFun _ _ => true
  end.

(** [a || b]. *)
Definition js_or (a b : JSVal) : JSVal := if truthy a then a else b.

(** [a === b].  Two objects or arrays are equal only when they are the same
    reference; every [===] of the source compares values that come from
    different places (a fetched key and a decoded header, a response field
    and a literal), so objects and arrays never compare equal. *)
Definition strict_eq (a b : JSVal) : bool :=
  match a, b with
  | JUndefined, JUndefined => true
  | JNull, JNull => true
  | JBool x, JBool y => Bool.eqb x y
  | JNum x, JNum y => x =? y
  | JStr x, JStr y => (x =? y)%string
  | JFun x _, JFun y _ => (x =? y)%string
  | _, _ => false
  end.

Definition strict_ne (a b : JSVal) : bool := negb (strict_eq a b).

(** Own-property lookup: an object is the list of its own properties, the
    first entry of a name being the property. *)
Fixpoint own_property (fields : list (string * JSVal)) (name : string) : JSVal :=
  match fields with
  | [] => JUndefined
  | (k, v) :: rest => if (k =? name)%string then v else own_property rest name
  end.

(** ** Errors, responses and completions *)

Record HttpResponse : Type := mkResponse {
  status : Z;
  data : JSVal
}.

(** A thrown value: the fields the [catch] blocks read.  [err_response] and
    [err_request] are set by axios only. *)
Record JSError : Type := mkError {
  err_name : string;
  err_message : string;
  err_response : option HttpResponse;
  err_request : bool
}.

(** [new Error(msg)]. *)
Definition Error (msg : string) : JSError := mkError "Error" msg None false.
Definition TypeError (msg : string) : JSError := mkError "TypeError" msg None false.

Inductive Completion (A : Type) : Type :=
| Normal (a : A)
| Throw (e : JSError).
Arguments Normal {A} a.
Arguments Throw {A} e.

(** [v.name].  Reading a property of [undefined] or [null] throws; the
    table is exact for the names the source reads ([keys], [length], [kid],
    [aud], [sub], [email], [email_verified], [name]): [Array.prototype.keys]
    and [String.prototype.sub] are built-in methods, both of length 0. *)
Definition js_get (v : JSVal) (name : string) : Completion JSVal :=
  match v with
  | JUndefined =>
      Throw (TypeError ("Cannot read properties of undefined (reading '" ++ name ++ "')"))
  | JNull =>
      Throw (TypeError ("Cannot read properties of null (reading '" ++ name ++ "')"))
  | JBool _ | JNum _ => Normal JUndefined
  | JStr s =>
      if (name =? "length")%string then Normal (JNum (Z.of_nat (String.length s)))
      else if (name =? "sub")%string then Normal (JFun "sub" 0)
      else Normal JUndefined
  | JArr l =>
      if (name =? "length")%string then Normal (JNum (Z.of_nat (List.length l)))
      else if (name =? "keys")%string then Normal (JFun "keys" 0)
      else Normal JUndefined
  | JObj fields => Normal (own_property fields name)
  | JFun f n =>
      if (name =? "length")%string then Normal (JNum n)
      else if (name =? "name")%string then Normal (JStr f)
      else Normal JUndefined
  end.

(** ** The outside world *)

Definition Pem : Type := string.

(** The options object handed to [jwt.verify]. *)
Record VerifyOptions : Type := mkOptions {
  algorithms : list string;
  audience : string;
  issuer : string
}.

Record World : Type := mkWorld {
  (** [process.env] *)
  process_env : gmap string string;
  (** [await axios.get(url, { params })]: the response, or the rejection *)
  axios_get : string -> list (string * string) -> Completion HttpResponse;
  (** [Buffer.from(s, 'base64').toString()] *)
  Buffer_base64_toString : string -> string;
  JSON_parse : string -> Completion JSVal;
  JSON_stringify : JSVal -> Completion string;
  jwkToPem : JSVal -> Completion Pem;
  (** [jwt.verify(token, pem, options)]: the payload, or the thrown error *)
  jwt_verify : string -> Pem -> VerifyOptions -> Completion JSVal
}.

(** [process.env.NAME || fallback]. *)
Definition env_or (w : World) (name fallback : string) : string :=
  match process_env w !! name with
  | Some s => if (s =? "")%string then fallback else s
  | None => fallback
  end.

(** ** Events and the verifier monad *)

(** A template literal: literal text and substituted values. *)
Inductive Frag : Type :=
| Lit (s : string)
| Sub (v : JSVal).

Inductive Event : Type :=
| LogInfo (msg : list Frag)
| LogError (msg : list Frag)
| HttpGet (url : string) (params : list (string * string))
| JwkToPem (key : JSVal)
| JwtVerify (token : string) (pem : Pem) (opts : VerifyOptions).

Definition M (A : Type) : Type := (list Event * Completion A)%type.

Definition ret {A} (a : A) : M A := ([], Normal a).
Definition throw {A} (e : JSError) : M A := ([], Throw e).
Definition emit (ev : Event) : M unit := ([ev], Normal tt).
Definition lift {A} (c : Completion A) : M A := ([], c).

Definition bind {A B} (m : M A) (f : A -> M B) : M B :=
  match m with
  | (t1, Normal a) => let (t2, r) := f a in ((t1 ++ t2)%list, r)
  | (t1, Throw e) => (t1, Throw e)
  end.

(** [try { body } catch (error) { handler }]. *)
Definition try_catch {A} (body : M A) (handler : JSError -> M A) : M A :=
  match body with
  | (t1, Normal a) => (t1, Normal a)
  | (t1, Throw e) => let (t2, r) := handler e in ((t1 ++ t2)%list, r)
  end.

Declare Scope verifier_scope.
Delimit Scope verifier_scope with verifier.
Notation "x <- m ;; k" := (bind m (fun x => k))
  (at level 100, m at next level, right associativity) : verifier_scope.
Notation "m ;; k" := (bind m (fun _ => k))
  (at level 100, right associativity) : verifier_scope.
Local Open Scope verifier_scope.

Definition trace {A} (m : M A) : list Event := fst m.
Definition outcome {A} (m : M A) : Completion A := snd m.

(** Whether [String(v)], the conversion a template literal applies to a
    substituted value, returns.  An object converts through its [toString]:
    an own property of that name is no function (the values come from
    JSON), and the conversion throws; an array converts its elements. *)
Fixpoint to_string_returns (v : JSVal) : bool :=
  match v with
  | JArr elems => forallb to_string_returns elems
  | JObj fields => negb (existsb (fun field => (fst field =? "toString")%string) fields)
  | _ => true
  end.

Definition frag_returns (f : Frag) : bool :=
  match f with
  | Lit _ => true
  | Sub v => to_string_returns v
  end.

(** Evaluating a template literal. *)
Definition template (msg : list Frag) : Completion (list Frag) :=
  if forallb frag_returns msg then Normal msg
  else Throw (TypeError "Cannot convert object to primitive value").

(** [logger.info(`...`)] and [logger.error(`...`)]. *)
Definition logger_info (msg : list Frag) : M unit :=
  text <- lift (template msg) ;; emit (LogInfo text).
Definition logger_error (msg : list Frag) : M unit :=
  text <- lift (template msg) ;; emit (LogError text).

(** The object both verifiers return. *)
Record IdentityClaims : Type := mkClaims {
  sub : JSVal;
  email : JSVal;
  email_verified : bool;
  name : JSVal
}.

(** ** The shared [catch] block *)

Section Verifiers.

Variable w : World.

(** [await axios.get(url, { params })]. *)
Definition http_get (url : string) (params : list (string * string)) : M HttpResponse :=
  emit (HttpGet url params) ;;
  lift (axios_get w url params).

(** [s.substring(0, 6)] where [s] may be any value: only strings have the
    method.  The six code units are six characters on ASCII text, which is
    what client identifiers are. *)
Definition js_substring6 (what : string) (v : JSVal) : Completion string :=
  match v with
  | JStr s => Normal (String.substring 0 6 s)
  | _ => Throw (TypeError (what ++ ".substring is not a function"))
  end.

(** The [catch (error)] block of both verifiers; they differ in the
    provider's name only. *)
Definition catch_block {A} (provider : string) (error : JSError) : M A :=
  logger_error [Lit (provider ++ " token verification error: ");
                Sub (js_or (JStr (err_message error)) (JStr "Unknown error"))] ;;
  match err_response error with
  | Some response =>
      try_catch
        (logger_error [Lit "Response status: "; Sub (JNum (status response))] ;;
         body <- lift (JSON_stringify w (data response)) ;;
         logger_error [Lit "Response data: "; Sub (JStr body)])
        (fun _ => logger_error [Lit "Error logging response details"])
  | None =>
      if err_request error
      then logger_error [Lit ("No response received from " ++ provider)]
      else ret tt
  end ;;
  throw (Error ("Failed to verify " ++ provider ++ " token")).

(** ** utils/googleTokenVerifier.js *)

(** The ternaries that shorten a configured identifier for the log.  As
    for [js_substring6], the six code units of [substring(0, 6)] are taken
    as six characters of the text, which is exact on ASCII identifiers. *)
Definition id_prefix (clientId : string) : string :=
  if negb (clientId =? "")%string then String.substring 0 6 clientId ++ "..." else "not set".

(** The body of the [try] block. *)
Definition verifyGoogleIdToken_try (idToken : string) : M IdentityClaims :=
  logger_info [Lit "Attempting to verify Google ID token"] ;;
  response <- http_get "https://oauth2.googleapis.com/tokeninfo" [("id_token", idToken)] ;;
  aud <- lift (js_get (data response) "aud") ;;
  let tokenAudience := js_or aud (JStr "") in
  logger_info [Lit "Token has audience: "; Sub tokenAudience] ;;
  let webClientId := env_or w "GOOGLE_CLIENT_ID" "" in
  let iosClientId := env_or w "GOOGLE_IOS_CLIENT_ID" "" in
  (if strict_ne tokenAudience (JStr webClientId) && strict_ne tokenAudience (JStr iosClientId)
   then
     let webIdPrefix := id_prefix webClientId in
     let iosIdPrefix := id_prefix iosClientId in
     audPrefix <- lift (js_substring6 "tokenAudience" tokenAudience) ;;
     logger_error [Lit "Token audience mismatch: "; Sub (JStr audPrefix);
                   Lit "... does not match web ("; Sub (JStr webIdPrefix);
                   Lit ") or iOS ("; Sub (JStr iosIdPrefix); Lit ")"] ;;
     throw (Error "Token audience mismatch")
   else ret tt) ;;
  email_logged <- lift (js_get (data response) "email") ;;
  logger_info [Lit "Successfully verified Google token for email: ";
               Sub (js_or email_logged (JStr "unknown"))] ;;
  sub' <- lift (js_get (data response) "sub") ;;
  email' <- lift (js_get (data response) "email") ;;
  email_verified' <- lift (js_get (data response) "email_verified") ;;
  name' <- lift (js_get (data response) "name") ;;
  ret {| sub := js_or sub' (JStr "");
         email := js_or email' (JStr "");
         email_verified := strict_eq email_verified' (JStr "true");
         name := js_or name' (JStr "") |}.

Definition verifyGoogleIdToken (idToken : string) : M IdentityClaims :=
  try_catch (verifyGoogleIdToken_try idToken) (catch_block "Google").

(** ** utils/appleTokenVerifier.js *)

(** [identityToken.split('.')]. *)
Fixpoint split_dot (s : string) : list string :=
  match s with
  | EmptyString => [EmptyString]
  | String c rest =>
      if Ascii.eqb c "."
      then EmptyString :: split_dot rest
      else match split_dot rest with
           | seg :: segs => String c seg :: segs
           | [] => [String c EmptyString]
           end
  end.

(** [s.replace(/-/g, '+').replace(/_/g, '/')]. *)
Fixpoint url_safe_to_base64 (s : string) : string :=
  match s with
  | EmptyString => EmptyString
  | String c rest =>
      String (if Ascii.eqb c "-" then "+"%char
              else if Ascii.eqb c "_" then "/"%char else c)
             (url_safe_to_base64 rest)
  end.

(** The loop of [keys.find(key => key.kid === header.kid)] over the
    elements: the first element whose callback is true, [undefined] when
    there is none; an exception in the callback ends the search. *)
Fixpoint find_key (elems : list JSVal) (header : JSVal) : Completion JSVal :=
  match elems with
  | [] => Normal JUndefined
  | key :: rest =>
      match js_get key "kid" with
      | Throw e => Throw e
      | Normal kid =>
          match js_get header "kid" with
          | Throw e => Throw e
          | Normal header_kid =>
              if strict_eq kid header_kid then Normal key else find_key rest header
          end
      end
  end.

(** [keys.find(...)]: only arrays have the method. *)
Definition keys_find (keys header : JSVal) : Completion JSVal :=
  match keys with
  | JArr elems => find_key elems header
  | _ => Throw (TypeError "keys.find is not a function")
  end.

(** The options of the [jwt.verify] call. *)
Definition apple_verify_options (appleClientId : string) : VerifyOptions :=
  {| algorithms := ["RS256"];
     audience := appleClientId;
     issuer := "https://appleid.apple.com" |}.

(** The body of the [try] block. *)
Definition verifyAppleIdToken_try (identityToken : string) : M IdentityClaims :=
  logger_info [Lit "Attempting to verify Apple ID token"] ;;
  response <- http_get "https://appleid.apple.com/auth/keys" [] ;;
  keys <- lift (js_get (data response) "keys") ;;
  no_keys <- (if negb (truthy keys) then ret true
              else len <- lift (js_get keys "length") ;;
                   ret (strict_eq len (JNum 0))) ;;
  (if no_keys : bool
   then logger_error [Lit "No Apple public keys available"] ;;
        throw (Error "No Apple public keys available")
   else ret tt) ;;
  let tokenParts := split_dot identityToken in
  (if negb (List.length tokenParts =? 3)%nat
   then logger_error [Lit "Invalid Apple ID token format"] ;;
        throw (Error "Invalid token format")
   else ret tt) ;;
  header <- try_catch
              (let base64 := url_safe_to_base64 (nth 0 tokenParts "") in
               let headerJson := Buffer_base64_toString w base64 in
               lift (JSON_parse w headerJson))
              (fun error =>
                 logger_error [Lit "Failed to decode token header: ";
                               Sub (JStr (err_message error))] ;;
                 throw (Error "Invalid token header")) ;;
  matchingKey <- lift (keys_find keys header) ;;
  (if negb (truthy matchingKey)
   then header_kid <- lift (js_get header "kid") ;;
        logger_error [Lit "No matching Apple public key found for kid: "; Sub header_kid] ;;
        throw (Error "No matching Apple public key found")
   else ret tt) ;;
  pem <- (emit (JwkToPem matchingKey) ;; lift (jwkToPem w matchingKey)) ;;
  let appleClientId := env_or w "APPLE_CLIENT_ID" "com.aicalorie.app" in
  payload <- (emit (JwtVerify identityToken pem (apple_verify_options appleClientId)) ;;
              lift (jwt_verify w identityToken pem (apple_verify_options appleClientId))) ;;
  sub_logged <- lift (js_get payload "sub") ;;
  logger_info [Lit "Successfully verified Apple token for subject: ";
               Sub (js_or sub_logged (JStr "unknown"))] ;;
  sub' <- lift (js_get payload "sub") ;;
  email' <- lift (js_get payload "email") ;;
  email_verified' <- lift (js_get payload "email_verified") ;;
  ret {| sub := js_or sub' (JStr "");
         email := js_or email' (JStr "");
         email_verified := strict_eq email_verified' (JBool true);
         name := JStr "" |}.

Definition verifyAppleIdToken (identityToken : string) : M IdentityClaims :=
  try_catch (verifyAppleIdToken_try identityToken) (catch_block "Apple").

End Verifiers.

(** ** Vocabulary of the statements *)

(** The message of the error both verifiers rethrow. *)
Definition generic_error (provider : string) : JSError :=
  Error ("Failed to verify " ++ provider ++ " token").

Definition google_tokeninfo_url : string := "https://oauth2.googleapis.com/tokeninfo".

Definition apple_keys_url : string := "https://appleid.apple.com/auth/keys".

(** The guard of step 1 read as a condition on the fetched [keys]:
    [!(!keys || keys.length === 0)]. *)
Definition keys_usable (keys : JSVal) : bool :=
  truthy keys &&
  match js_get keys "length" with
  | Normal len => negb (strict_eq len (JNum 0))
  | Throw _ => false
  end.

(** The text [JSON.parse] is called on: the decoded first segment. *)
Definition header_json (w : World) (identityToken : string) : string :=
  Buffer_base64_toString w (url_safe_to_base64 (nth 0 (split_dot identityToken) "")).


(** Text in which every character is one byte and one UTF-16 code unit. *)
Definition is_ascii (s : string) : bool :=
  forallb (fun c => (nat_of_ascii c <? 128)%nat) (list_ascii_of_string s).

(** The log lines among the events of a run. *)
Definition is_log (ev : Event) : bool :=
  match ev with
  | LogInfo _ | LogError _ => true
  | _ => false
  end.

(** The number of ['.'] in a token. *)
Fixpoint count_dots (s : string) : nat :=
  match s with
  | EmptyString => 0
  | String c rest => if Ascii.eqb c "." then S (count_dots rest) else count_dots rest
  end.

(** [segments.join('.')], the inverse of [split('.')]. *)
Fixpoint join_dot (segments : list string) : string :=
  match segments with
  | [] => ""
  | [seg] => seg
  | seg :: rest => seg ++ "." ++ join_dot rest
  end.

(** ** The contract of [jwt.verify] *)

Section JwtContract.

(** Whether the signature of a token verifies under a key with an
    algorithm: the cryptography itself is not modelled. *)
Variable signature_valid : string -> string -> Pem -> bool.

(** The clock of the verification, in seconds. *)
Variable now : Z.

Definition claim_equals (payload : JSVal) (claim value : string) : Prop :=
  js_get payload claim = Normal (JStr value).

(** [exp] is in the past. *)
Definition expired (payload : JSVal) : Prop :=
  exists exp, js_get payload "exp" = Normal (JNum exp) /\ exp <= now.

(** Modelled from the spec: [jwt.verify] belongs to the jsonwebtoken
    package, which is not part of the sources.  Step 6 of the Apple
    algorithm says what the primitive is relied on for: it returns the
    payload only when the signature verifies with one of the allowed
    algorithms, the [aud] claim equals the expected audience, the [iss]
    claim equals the expected issuer, and [exp] is not in the past. *)
Definition jwt_verify_contract (w : World) : Prop :=
  forall token pem opts payload,
    jwt_verify w token pem opts = Normal payload ->
    (exists alg, In alg (algorithms opts) /\ signature_valid alg token pem = true) /\
    claim_equals payload "aud" (audience opts) /\
    claim_equals payload "iss" (issuer opts) /\
    ~ expired payload.

End JwtContract.

(** ** Concrete worlds *)

Definition no_stringify (v : JSVal) : Completion string := Normal "{}".

(** A world for the Google verifier: the configuration, and the body the
    introspection endpoint answers with (status 200). *)
Definition google_world (env : gmap string string) (body : JSVal) : World :=
  {| process_env := env;
     axios_get := fun _ _ => Normal (mkResponse 200 body);
     Buffer_base64_toString := fun s => s;
     JSON_parse := fun _ => Throw (mkError "SyntaxError" "Unexpected token" None false);
     JSON_stringify := no_stringify;
     jwkToPem := fun _ => Throw (Error "unused");
     jwt_verify := fun _ _ _ => Throw (Error "unused") |}.

(** A toy Apple world.  The header text is the key identifier itself, a key
    [{kid}] converts to the PEM text ["PEM:" ++ kid], and [jwt.verify]
    accepts one token, signed by the key [k1], for the default audience. *)
Definition toy_token : string := "k1.payload.signature".

Definition toy_payload (email_verified' : JSVal) : JSVal :=
  JObj [("iss", JStr "https://appleid.apple.com");
        ("aud", JStr "com.aicalorie.app");
        ("exp", JNum 2000000000);
        ("sub", JStr "001234.abcdef");
        ("email", JStr "user@example.com");
        ("email_verified", email_verified')].

Definition toy_jwkToPem (key : JSVal) : Completion Pem :=
  match js_get key "kid" with
  | Normal (JStr kid) => Normal ("PEM:" ++ kid)
  | _ => Throw (Error "Expected: key.kty")
  end.

Definition toy_signature_valid (alg token : string) (pem : Pem) : bool :=
  (alg =? "RS256")%string && (token =? toy_token)%string && (pem =? "PEM:k1")%string.

Definition toy_jwt_verify (email_verified' : JSVal)
    (token : string) (pem : Pem) (opts : VerifyOptions) : Completion JSVal :=
  if existsb (fun alg => toy_signature_valid alg token pem) (algorithms opts)
     && (audience opts =? "com.aicalorie.app")%string
     && (issuer opts =? "https://appleid.apple.com")%string
  then Normal (toy_payload email_verified')
  else Throw (mkError "JsonWebTokenError" "invalid token" None false).

Definition apple_world (keys : JSVal) (email_verified' : JSVal) : World :=
  {| process_env := ∅;
     axios_get := fun _ _ => Normal (mkResponse 200 (JObj [("keys", keys)]));
     Buffer_base64_toString := fun s => s;
     JSON_parse := fun s => Normal (JObj [("kid", JStr s)]);
     JSON_stringify := no_stringify;
     jwkToPem := toy_jwkToPem;
     jwt_verify := toy_jwt_verify email_verified' |}.

Definition toy_keys : JSVal :=
  JArr [JObj [("kid", JStr "k0")]; JObj [("kid", JStr "k1")]].

Definition toy_now : Z := 1700000000.

(** The toy Apple world of an application that configured its own client
    identifier: [APPLE_CLIENT_ID] is set, and [jwt.verify] accepts the toy
    token for that audience only. *)
Definition configured_payload (clientId : string) : JSVal :=
  JObj [("iss", JStr "https://appleid.apple.com");
        ("aud", JStr clientId);
        ("exp", JNum 2000000000);
        ("sub", JStr "001234.abcdef");
        ("email", JStr "user@example.com");
        ("email_verified", JBool true)].

Definition configured_jwt_verify (clientId : string)
    (token : string) (pem : Pem) (opts : VerifyOptions) : Completion JSVal :=
  if existsb (fun alg => toy_signature_valid alg token pem) (algorithms opts)
     && (audience opts =? clientId)%string
     && (issuer opts =? "https://appleid.apple.com")%string
  then Normal (configured_payload clientId)
  else Throw (mkError "JsonWebTokenError" "jwt audience invalid" None false).

Definition configured_apple_world (clientId : string) : World :=
  {| process_env := {[ "APPLE_CLIENT_ID" := clientId ]};
     axios_get := fun _ _ => Normal (mkResponse 200 (JObj [("keys", toy_keys)]));
     Buffer_base64_toString := fun s => s;
     JSON_parse := fun s => Normal (JObj [("kid", JStr s)]);
     JSON_stringify := no_stringify;
     jwkToPem := toy_jwkToPem;
     jwt_verify := configured_jwt_verify clientId |}.

(** The toy Apple world with a [JSON.parse] that rejects every header. *)
Definition undecodable_world : World :=
  {| process_env := ∅;
     axios_get := fun _ _ => Normal (mkResponse 200 (JObj [("keys", toy_keys)]));
     Buffer_base64_toString := fun s => s;
     JSON_parse := fun _ =>
       Throw (mkError "SyntaxError" "Unexpected token k in JSON at position 0" None false);
     JSON_stringify := no_stringify;
     jwkToPem := toy_jwkToPem;
     jwt_verify := toy_jwt_verify (JBool true) |}.

(** The toy Apple world with keys that [jwkToPem] cannot convert. *)
Definition unconvertible_world : World :=
  {| process_env := ∅;
     axios_get := fun _ _ => Normal (mkResponse 200 (JObj [("keys", toy_keys)]));
     Buffer_base64_toString := fun s => s;
     JSON_parse := fun s => Normal (JObj [("kid", JStr s)]);
     JSON_stringify := no_stringify;
     jwkToPem := fun _ => Throw (Error "Expected: key.kty");
     jwt_verify := toy_jwt_verify (JBool true) |}.

(** A world whose provider cannot be used: [axios.get] rejects with the
    given error. *)
Definition offline_world (error : JSError) (stringify : JSVal -> Completion string) : World :=
  {| process_env := ∅;
     axios_get := fun _ _ => Throw error;
     Buffer_base64_toString := fun s => s;
     JSON_parse := fun _ => Throw (mkError "SyntaxError" "Unexpected token" None false);
     JSON_stringify := stringify;
     jwkToPem := fun _ => Throw (Error "unused");
     jwt_verify := fun _ _ _ => Throw (Error "unused") |}.

(** ** Laws of the verifier monad *)

Section MonadLaws.

Context {A B : Type}.

Lemma bind_ret (a : A) (f : A -> M B) : bind (ret a) f = f a.
Proof. unfold bind, ret. destruct (f a) as [t r]. reflexivity. Qed.

Lemma bind_emit (ev : Event) (k : unit -> M B) :
  bind (emit ev) k = (ev :: trace (k tt), outcome (k tt)).
Proof. unfold bind, emit, trace, outcome. destruct (k tt) as [t r]. reflexivity. Qed.

Lemma outcome_bind (m : M A) (f : A -> M B) :
  outcome (bind m f) =
  match outcome m with
  | Normal a => outcome (f a)
  | Throw e => Throw e
  end.
Proof.
  destruct m as [t [a | e]]; simpl; [| reflexivity].
  destruct (f a) as [t2 r]. reflexivity.
Qed.

Lemma trace_bind (m : M A) (f : A -> M B) :
  trace (bind m f) =
  (trace m ++ match outcome m with
              | Normal a => trace (f a)
              | Throw _ => []
              end)%list.
Proof.
  destruct m as [t [a | e]]; simpl.
  - destruct (f a) as [t2 r]. reflexivity.
  - symmetry. apply app_nil_r.
Qed.

(** A sequence returns only if both halves do. *)
Lemma bind_Normal_inv (m : M A) (f : A -> M B) (b : B) :
  outcome (bind m f) = Normal b ->
  exists a, outcome m = Normal a /\ outcome (f a) = Normal b.
Proof.
  rewrite outcome_bind. destruct (outcome m) as [a | e]; [eauto | discriminate].
Qed.

End MonadLaws.

Lemma outcome_try_catch {A} (body : M A) (handler : JSError -> M A) :
  outcome (try_catch body handler) =
  match outcome body with
  | Normal a => Normal a
  | Throw e => outcome (handler e)
  end.
Proof.
  destruct body as [t [a | e]]; simpl; [reflexivity |].
  destruct (handler e) as [t2 r]. reflexivity.
Qed.

Lemma trace_try_catch {A} (body : M A) (handler : JSError -> M A) :
  trace (try_catch body handler) =
  (trace body ++ match outcome body with
                 | Normal _ => []
                 | Throw e => trace (handler e)
                 end)%list.
Proof.
  destruct body as [t [a | e]]; simpl.
  - symmetry. apply app_nil_r.
  - destruct (handler e) as [t2 r]. reflexivity.
Qed.

Lemma outcome_lift {A} (c : Completion A) : outcome (lift c) = c.
Proof. reflexivity. Qed.

(** A log line without substitutions is written as it is. *)
Lemma logger_info_lit (text : string) : logger_info [Lit text] = emit (LogInfo [Lit text]).
Proof. reflexivity. Qed.

Lemma logger_error_lit (text : string) : logger_error [Lit text] = emit (LogError [Lit text]).
Proof. reflexivity. Qed.

(** A block that ends with [throw] does not return. *)
Lemma ends_with_throw {A B} (m : M A) (e : JSError) (b : B) :
  outcome (m ;; throw e) <> Normal b.
Proof. rewrite outcome_bind. destruct (outcome m); discriminate. Qed.

(** A log line fails only with the [TypeError] of its template. *)
Lemma logger_info_throw (msg : list Frag) (e : JSError) :
  outcome (logger_info msg) = Throw e -> err_name e = "TypeError".
Proof.
  unfold logger_info, template. destruct (forallb frag_returns msg); [discriminate |].
  intros [= <-]. reflexivity.
Qed.

Lemma logger_error_throw (msg : list Frag) (e : JSError) :
  outcome (logger_error msg) = Throw e -> err_name e = "TypeError".
Proof.
  unfold logger_error, template. destruct (forallb frag_returns msg); [discriminate |].
  intros [= <-]. reflexivity.
Qed.

(** ** The [catch] block *)

(** Whatever was caught, and whatever happens while it is logged, the
    [catch] block ends by throwing the generic error. *)
Lemma catch_block_outcome {A} (w : World) (provider : string) (error : JSError) :
  outcome (@catch_block w A provider error) = Throw (generic_error provider).
Proof.
  unfold catch_block.
  rewrite outcome_bind.
  assert (outcome (logger_error
                     [Lit (provider ++ " token verification error: ");
                      Sub (js_or (JStr (err_message error)) (JStr "Unknown error"))])
          = Normal tt) as ->.
  { unfold js_or. destruct (truthy _); reflexivity. }
  rewrite outcome_bind.
  destruct (err_response error) as [response |].
  - rewrite outcome_try_catch.
    destruct (outcome (_ ;; _)) as [[] |]; reflexivity.
  - destruct (err_request error); reflexivity.
Qed.

Lemma guarded_outcome {A} (w : World) (provider : string) (body : M A) :
  outcome (try_catch body (catch_block w provider)) =
  match outcome body with
  | Normal a => Normal a
  | Throw _ => Throw (generic_error provider)
  end.
Proof.
  rewrite outcome_try_catch. destruct (outcome body); [reflexivity |].
  apply catch_block_outcome.
Qed.

Lemma outcome_http_get (w : World) (url : string) (params : list (string * string)) :
  outcome (http_get w url params) = axios_get w url params.
Proof. unfold http_get. rewrite bind_emit. reflexivity. Qed.

(** Splits a hypothesis [outcome (x <- m ;; k) = Normal b]. *)
Ltac bind_inv H :=
  let a := fresh "a" in
  let Ha := fresh "Ha" in
  apply bind_Normal_inv in H; destruct H as (a & Ha & H).

(** After a property of a value was read once, the value is neither
    [undefined] nor [null], and every later read returns. *)
Lemma js_get_total (v : JSVal) (n1 n2 : string) (x : JSVal) :
  js_get v n1 = Normal x -> exists y, js_get v n2 = Normal y.
Proof.
  destruct v; simpl; try discriminate; intros _; eauto.
  - destruct (n2 =? "length")%string; [| destruct (n2 =? "sub")%string]; eauto.
  - destruct (n2 =? "length")%string; [| destruct (n2 =? "keys")%string]; eauto.
  - destruct (n2 =? "length")%string; [| destruct (n2 =? "name")%string]; eauto.
Qed.

(** ** The Google verifier *)

(** What a successful run of the Google verifier went through. *)
Lemma google_success (w : World) (idToken : string) (c : IdentityClaims) :
  outcome (verifyGoogleIdToken w idToken) = Normal c ->
  exists response aud sub' email' email_verified' name',
    axios_get w google_tokeninfo_url [("id_token", idToken)] = Normal response /\
    js_get (data response) "aud" = Normal aud /\
    (strict_eq (js_or aud (JStr "")) (JStr (env_or w "GOOGLE_CLIENT_ID" "")) = true \/
     strict_eq (js_or aud (JStr "")) (JStr (env_or w "GOOGLE_IOS_CLIENT_ID" "")) = true) /\
    js_get (data response) "sub" = Normal sub' /\
    js_get (data response) "email" = Normal email' /\
    js_get (data response) "email_verified" = Normal email_verified' /\
    js_get (data response) "name" = Normal name' /\
    c = {| sub := js_or sub' (JStr "");
           email := js_or email' (JStr "");
           email_verified := strict_eq email_verified' (JStr "true");
           name := js_or name' (JStr "") |}.
Proof.
  unfold verifyGoogleIdToken. rewrite guarded_outcome.
  destruct (outcome (verifyGoogleIdToken_try w idToken)) as [c' |] eqn:H; [| discriminate].
  intros Hc; injection Hc as ->.
  unfold verifyGoogleIdToken_try in H.
  bind_inv H. bind_inv H. rename a0 into response.
  rewrite outcome_http_get in Ha0.
  bind_inv H. rename a0 into aud. rewrite outcome_lift in Ha1.
  bind_inv H. bind_inv H.
  bind_inv H. bind_inv H. bind_inv H. rename a4 into sub'.
  bind_inv H. rename a4 into email'. bind_inv H. rename a4 into ev'.
  bind_inv H. rename a4 into name'.
  rewrite outcome_lift in *.
  exists response, aud, sub', email', ev', name'.
  repeat split; try assumption.
  - unfold strict_ne in Ha3.
    destruct (strict_eq (js_or aud (JStr "")) (JStr (env_or w "GOOGLE_CLIENT_ID" ""))); [now left |].
    destruct (strict_eq (js_or aud (JStr "")) (JStr (env_or w "GOOGLE_IOS_CLIENT_ID" ""))); [now right |].
    exfalso. cbn [negb andb] in Ha3. rewrite outcome_bind in Ha3.
    rewrite outcome_lift in Ha3.
    destruct (js_substring6 _ _); [| discriminate].
    now apply ends_with_throw in Ha3.
  - unfold ret, outcome in H. simpl in H. congruence.
Qed.

Lemma strict_eq_JStr (v : JSVal) (s : string) :
  strict_eq v (JStr s) = true <-> v = JStr s.
Proof.
  destruct v; simpl; try (split; [discriminate | congruence]).
  rewrite String.eqb_eq. split; congruence.
Qed.

Lemma strict_eq_JBool_true (v : JSVal) :
  strict_eq v (JBool true) = true <-> v = JBool true.
Proof.
  destruct v as [| | [|] | | | | |]; simpl; split; congruence.
Qed.

(** The two events every run of the Google verifier starts with. *)
Lemma google_trace_prefix (w : World) (idToken : string) :
  exists rest,
    trace (verifyGoogleIdToken w idToken) =
    LogInfo [Lit "Attempting to verify Google ID token"]
    :: HttpGet google_tokeninfo_url [("id_token", idToken)] :: rest.
Proof.
  unfold verifyGoogleIdToken. rewrite trace_try_catch.
  unfold verifyGoogleIdToken_try, http_get.
  rewrite logger_info_lit, bind_emit. cbn [trace outcome fst snd].
  rewrite trace_bind, bind_emit. cbn [trace outcome fst snd app lift].
  eexists. reflexivity.
Qed.

Lemma js_get_throw (v : JSVal) (n : string) (e : JSError) :
  js_get v n = Throw e -> err_name e = "TypeError".
Proof.
  destruct v; simpl; try discriminate; try (intros [= <-]; reflexivity).
  - destruct (n =? "length")%string; [| destruct (n =? "sub")%string]; discriminate.
  - destruct (n =? "length")%string; [| destruct (n =? "keys")%string]; discriminate.
  - destruct (n =? "length")%string; [| destruct (n =? "name")%string]; discriminate.
Qed.

Lemma js_substring6_throw (what : string) (v : JSVal) (e : JSError) :
  js_substring6 what v = Throw e -> err_name e = "TypeError".
Proof. destruct v; simpl; try discriminate; intros [= <-]; reflexivity. Qed.

(** Rewrites a later property read of a value that was read before. *)
Ltac read_again Hfirst H field :=
  let x := fresh "x" in
  let Hx := fresh "Hx" in
  destruct (js_get_total _ _ field _ Hfirst) as [x Hx];
  rewrite ?Hx in H; rewrite outcome_bind, outcome_lift in H.

(** The errors the [try] block of the Google verifier can end with. *)
Lemma google_try_errors (w : World) (idToken : string) (e : JSError) :
  outcome (verifyGoogleIdToken_try w idToken) = Throw e ->
  axios_get w google_tokeninfo_url [("id_token", idToken)] = Throw e \/
  exists response,
    axios_get w google_tokeninfo_url [("id_token", idToken)] = Normal response /\
    (err_name e = "TypeError" \/ e = Error "Token audience mismatch").
Proof.
  unfold verifyGoogleIdToken_try.
  rewrite outcome_bind, logger_info_lit. cbn [emit outcome snd].
  rewrite outcome_bind, outcome_http_get. fold google_tokeninfo_url.
  destruct (axios_get w google_tokeninfo_url _) as [response | e0];
    [| intros [= ->]; now left].
  intros H. right. exists response. split; [reflexivity |].
  rewrite outcome_bind, outcome_lift in H.
  destruct (js_get (data response) "aud") as [aud | e1] eqn:Haud.
  2: { injection H as <-. left. eapply js_get_throw; eassumption. }
  rewrite outcome_bind in H.
  destruct (outcome (logger_info _)) as [[] | e1] eqn:Hlog.
  2: { injection H as <-. left. eapply logger_info_throw; eassumption. }
  rewrite outcome_bind in H.
  destruct (strict_ne _ _ && strict_ne _ _).
  - rewrite outcome_bind, outcome_lift in H.
    destruct (js_substring6 _ _) as [p | e1] eqn:Hp.
    + rewrite outcome_bind in H.
      destruct (outcome (logger_error _)) as [[] | e1] eqn:Hmismatch.
      * injection H as <-. now right.
      * injection H as <-. left. eapply logger_error_throw; eassumption.
    + injection H as <-. left. eapply js_substring6_throw; eassumption.
  - cbn [ret outcome snd] in H.
    read_again Haud H "email".
    rewrite outcome_bind in H. clear Hlog.
    match type of H with
    | context [outcome (logger_info ?msg)] =>
        destruct (outcome (logger_info msg)) as [[] | e1] eqn:Hlog
    end.
    2: { injection H as <-. left. eapply logger_info_throw; eassumption. }
    read_again Haud H "sub". read_again Haud H "email".
    read_again Haud H "email_verified". read_again Haud H "name".
    discriminate.
Qed.

(** The outcome of the Google verifier is a function of the configured
    client identifiers and of the provider's answer. *)
Lemma google_outcome_determined (w w' : World) (idToken idToken' : string) :
  env_or w' "GOOGLE_CLIENT_ID" "" = env_or w "GOOGLE_CLIENT_ID" "" ->
  env_or w' "GOOGLE_IOS_CLIENT_ID" "" = env_or w "GOOGLE_IOS_CLIENT_ID" "" ->
  axios_get w' google_tokeninfo_url [("id_token", idToken')] =
  axios_get w google_tokeninfo_url [("id_token", idToken)] ->
  outcome (verifyGoogleIdToken w' idToken') = outcome (verifyGoogleIdToken w idToken).
Proof.
  intros Hweb Hios Hax.
  unfold verifyGoogleIdToken. rewrite !guarded_outcome.
  assert (outcome (verifyGoogleIdToken_try w' idToken') =
          outcome (verifyGoogleIdToken_try w idToken)) as ->; [| reflexivity].
  unfold verifyGoogleIdToken_try.
  rewrite !(outcome_bind (logger_info _)), !logger_info_lit.
  cbn [emit outcome snd].
  rewrite !(outcome_bind (http_get _ _ _)), !outcome_http_get.
  fold google_tokeninfo_url. rewrite Hax.
  destruct (axios_get w google_tokeninfo_url _) as [response | e]; [| reflexivity].
  rewrite Hweb, Hios. reflexivity.
Qed.

(** ** The Apple verifier *)

(** Unfolds the monad on a run whose oracles' answers are known. *)
Ltac run :=
  cbn [bind lift emit ret throw try_catch logger_info logger_error http_get
       template forallb frag_returns app trace outcome fst snd negb andb orb].

(** Step 1 rejects a key set that is missing or empty before anything else
    is looked at. *)
Lemma apple_run_no_keys (w : World) (identityToken : string)
    (response : HttpResponse) (keys : JSVal) :
  axios_get w apple_keys_url [] = Normal response ->
  js_get (data response) "keys" = Normal keys ->
  keys = JUndefined \/ keys = JNull \/ keys = JArr [] ->
  verifyAppleIdToken_try w identityToken =
  ([LogInfo [Lit "Attempting to verify Apple ID token"];
    HttpGet apple_keys_url [];
    LogError [Lit "No Apple public keys available"]],
   Throw (Error "No Apple public keys available")).
Proof.
  intros Hax Hkeys Hnone.
  unfold verifyAppleIdToken_try, apple_keys_url in *. run.
  rewrite Hax. run. rewrite Hkeys. run.
  destruct Hnone as [-> | [-> | ->]]; reflexivity.
Qed.

(** A run up to the segment count: the prefix every later step shares. *)
Lemma apple_run_bad_format (w : World) (identityToken : string)
    (response : HttpResponse) (keys : JSVal) :
  axios_get w apple_keys_url [] = Normal response ->
  js_get (data response) "keys" = Normal keys ->
  keys_usable keys = true ->
  List.length (split_dot identityToken) <> 3%nat ->
  verifyAppleIdToken_try w identityToken =
  ([LogInfo [Lit "Attempting to verify Apple ID token"];
    HttpGet apple_keys_url [];
    LogError [Lit "Invalid Apple ID token format"]],
   Throw (Error "Invalid token format")).
Proof.
  intros Hax Hkeys Huse Hlen.
  unfold keys_usable in Huse. apply andb_true_iff in Huse as [Ht Hl].
  destruct (js_get keys "length") as [len |] eqn:Hget; [| discriminate].
  apply negb_true_iff in Hl. apply Nat.eqb_neq in Hlen.
  unfold verifyAppleIdToken_try, apple_keys_url in *. run.
  rewrite Hax. run. rewrite Hkeys. run. rewrite Ht. run.
  rewrite Hget. run. rewrite Hl. run. rewrite Hlen. reflexivity.
Qed.



(** A key that [find] returned is an entry of the fetched set whose [kid]
    is that of the header. *)
Lemma find_key_found (elems : list JSVal) (header key : JSVal) :
  find_key elems header = Normal key ->
  truthy key = true ->
  In key elems /\
  exists kid header_kid,
    js_get key "kid" = Normal kid /\
    js_get header "kid" = Normal header_kid /\
    strict_eq kid header_kid = true.
Proof.
  intros Hfind Htruthy. induction elems as [| first rest IH]; simpl in Hfind.
  - injection Hfind as <-. discriminate.
  - destruct (js_get first "kid") as [kid |] eqn:Hk; [| discriminate].
    destruct (js_get header "kid") as [header_kid |] eqn:Hh; [| discriminate].
    destruct (strict_eq kid header_kid) eqn:Heq.
    + injection Hfind as <-. split; [now left | eauto].
    + destruct (IH Hfind) as [Hin Hkid]. split; [now right | exact Hkid].
Qed.

Lemma keys_find_found (keys header key : JSVal) :
  keys_find keys header = Normal key ->
  truthy key = true ->
  exists elems kid header_kid,
    keys = JArr elems /\ In key elems /\
    js_get key "kid" = Normal kid /\
    js_get header "kid" = Normal header_kid /\
    strict_eq kid header_kid = true.
Proof.
  destruct keys; simpl; try discriminate.
  intros Hfind Htruthy.
  destruct (find_key_found _ _ _ Hfind Htruthy) as (Hin & kid & hk & H1 & H2 & H3).
  eauto 10.
Qed.

(** What a successful run of the Apple verifier went through. *)
Lemma apple_success (w : World) (identityToken : string) (c : IdentityClaims) :
  outcome (verifyAppleIdToken w identityToken) = Normal c ->
  exists response keys header key pem payload,
    axios_get w apple_keys_url [] = Normal response /\
    js_get (data response) "keys" = Normal keys /\
    keys_usable keys = true /\
    List.length (split_dot identityToken) = 3%nat /\
    JSON_parse w (header_json w identityToken) = Normal header /\
    keys_find keys header = Normal key /\
    truthy key = true /\
    jwkToPem w key = Normal pem /\
    jwt_verify w identityToken pem
      (apple_verify_options (env_or w "APPLE_CLIENT_ID" "com.aicalorie.app"))
    = Normal payload /\
    exists sub' email' email_verified',
      js_get payload "sub" = Normal sub' /\
      js_get payload "email" = Normal email' /\
      js_get payload "email_verified" = Normal email_verified' /\
      c = {| sub := js_or sub' (JStr "");
             email := js_or email' (JStr "");
             email_verified := strict_eq email_verified' (JBool true);
             name := JStr "" |}.
Proof.
  unfold verifyAppleIdToken. rewrite guarded_outcome.
  destruct (outcome (verifyAppleIdToken_try w identityToken)) as [c' |] eqn:H;
    [| discriminate].
  intros Hc; injection Hc as ->.
  unfold verifyAppleIdToken_try in H.
  bind_inv H. bind_inv H. rename a0 into response.
  rewrite outcome_http_get in Ha0.
  bind_inv H. rename a0 into keys. rewrite outcome_lift in Ha1.
  bind_inv H. rename a0 into no_keys.
  bind_inv H.
  bind_inv H.
  bind_inv H. rename a2 into header.
  bind_inv H. rename a2 into key. rewrite outcome_lift in Ha6.
  bind_inv H.
  bind_inv H. rename a3 into pem.
  bind_inv H. rename a3 into payload.
  bind_inv H. bind_inv H.
  bind_inv H. rename a5 into sub'.
  bind_inv H. rename a5 into email'.
  bind_inv H. rename a5 into ev'.
  rewrite outcome_lift in *.
  exists response, keys, header, key, pem, payload.
  (* the guards that were passed *)
  assert (no_keys = false) as ->.
  { destruct no_keys; [| reflexivity].
    now apply ends_with_throw in Ha3. }
  assert (keys_usable keys = true) as Huse.
  { unfold keys_usable. destruct (truthy keys); cbn [negb] in Ha2; [| discriminate].
    rewrite outcome_bind, outcome_lift in Ha2.
    destruct (js_get keys "length") as [len |]; [| discriminate].
    cbn [ret outcome snd] in Ha2. injection Ha2 as ->. reflexivity. }
  assert (List.length (split_dot identityToken) = 3%nat) as Hlen.
  { destruct (List.length (split_dot identityToken) =? 3)%nat eqn:E.
    - now apply Nat.eqb_eq.
    - cbn [negb] in Ha4. now apply ends_with_throw in Ha4. }
  assert (JSON_parse w (header_json w identityToken) = Normal header) as Hparse.
  { rewrite outcome_try_catch, outcome_lift in Ha5. unfold header_json.
    destruct (JSON_parse w _) as [h |]; [exact Ha5 |].
    now apply ends_with_throw in Ha5. }
  assert (truthy key = true) as Hkey.
  { destruct (truthy key); [reflexivity |]. cbn [negb] in Ha7.
    rewrite outcome_bind, outcome_lift in Ha7.
    destruct (js_get header "kid"); [| discriminate].
    now apply ends_with_throw in Ha7. }
  rewrite bind_emit in Ha8. rewrite bind_emit in Ha9. cbn [outcome snd lift] in Ha8, Ha9.
  repeat (split; [assumption |]).
  exists sub', email', ev'.
  repeat (split; [assumption |]).
  cbn [ret outcome snd] in H. congruence.
Qed.

(** The toy primitive honours the contract. *)
Lemma toy_contract (keys email_verified' : JSVal) :
  jwt_verify_contract toy_signature_valid toy_now (apple_world keys email_verified').
Proof.
  intros token pem opts payload. cbn [jwt_verify apple_world]. unfold toy_jwt_verify.
  destruct (existsb _ _ && _ && _) eqn:Hok; [| discriminate].
  intros [= <-].
  apply andb_true_iff in Hok as [Hok Hiss]. apply andb_true_iff in Hok as [Hsig Haud].
  apply String.eqb_eq in Hiss, Haud. apply existsb_exists in Hsig as (alg & Hin & Hsig).
  split; [eauto |]. rewrite Hiss, Haud.
  repeat split. intros (exp & Hexp & Hle).
  injection Hexp as <-. unfold toy_now in Hle. lia.
Qed.

(** ** Audience check of the Google verifier *)

(** A string audience that differs from both configured identifiers (after
    the [|| ''] defaults) is rejected. *)
Lemma google_rejects_other_audience (w : World) (idToken : string)
    (response : HttpResponse) (aud : JSVal) (a : string) :
  axios_get w google_tokeninfo_url [("id_token", idToken)] = Normal response ->
  js_get (data response) "aud" = Normal aud ->
  js_or aud (JStr "") = JStr a ->
  a <> env_or w "GOOGLE_CLIENT_ID" "" ->
  a <> env_or w "GOOGLE_IOS_CLIENT_ID" "" ->
  outcome (verifyGoogleIdToken_try w idToken) = Throw (Error "Token audience mismatch") /\
  outcome (verifyGoogleIdToken w idToken) = Throw (Error "Failed to verify Google token").
Proof.
  intros Hax Haud Ha Hweb Hios.
  assert (outcome (verifyGoogleIdToken_try w idToken)
          = Throw (Error "Token audience mismatch")) as Htry.
  { apply String.eqb_neq in Hweb, Hios.
    unfold verifyGoogleIdToken_try, google_tokeninfo_url in *. run.
    rewrite Hax. run. rewrite Haud. run. rewrite Ha.
    unfold strict_ne. cbn [strict_eq]. rewrite Hweb, Hios. reflexivity. }
  split; [exact Htry |].
  unfold verifyGoogleIdToken. rewrite guarded_outcome, Htry. reflexivity.
Qed.

(** C1. The Google verifier is meant to fail with the audience-mismatch
    error whenever [aud] is neither configured identifier, an unset
    identifier matching nothing.  It does not: with both identifiers unset
    and a response without [aud], both sides of the comparison default to
    the empty string, the comparison succeeds, and claims are returned. *)
Theorem google_unset_identifiers_match_missing_aud :
  process_env (google_world ∅ (JObj [("sub", JStr "u1")])) !! "GOOGLE_CLIENT_ID" = None /\
  process_env (google_world ∅ (JObj [("sub", JStr "u1")])) !! "GOOGLE_IOS_CLIENT_ID" = None /\
  js_get (JObj [("sub", JStr "u1")]) "aud" = Normal JUndefined /\
  outcome (verifyGoogleIdToken (google_world ∅ (JObj [("sub", JStr "u1")]))
             "header.payload.signature")
  = Normal {| sub := JStr "u1"; email := JStr ""; email_verified := false;
              name := JStr "" |}.
Proof. repeat split. Qed.

(** ** The returned subject *)

(** [v || ''] is the empty string exactly when [v] is falsy. *)
Lemma js_or_empty (v : JSVal) : js_or v (JStr "") = JStr "" <-> truthy v = false.
Proof.
  unfold js_or. destruct (truthy v) eqn:Hv; split; try congruence.
  intros ->. discriminate.
Qed.

(** C2, as stated, fails: the Google verifier returns claims whose subject
    is the empty string when the introspection response carries the
    configured audience but no [sub]. *)
Lemma success_with_empty_subject :
  exists c,
    outcome (verifyGoogleIdToken
               (google_world {[ "GOOGLE_CLIENT_ID" := "web-client" ]}
                             (JObj [("aud", JStr "web-client")]))
               "header.payload.signature") = Normal c /\
    sub c = JStr "".
Proof. eexists. split; vm_compute; reflexivity. Qed.

(** C2, amended.  On every successful verification, Apple or Google, the
    returned subject is the provider's [sub] when that value is truthy and
    the empty string otherwise; it is the empty string exactly when the
    provider's [sub] is absent or falsy. *)
Theorem success_subject_is_sub_or_empty (w : World) (token : string) (c : IdentityClaims) :
  (outcome (verifyAppleIdToken w token) = Normal c ->
   exists pem payload sub',
     jwt_verify w token pem
       (apple_verify_options (env_or w "APPLE_CLIENT_ID" "com.aicalorie.app"))
     = Normal payload /\
     js_get payload "sub" = Normal sub' /\
     sub c = js_or sub' (JStr "") /\
     (truthy sub' = true -> sub c = sub') /\
     (sub c = JStr "" <-> truthy sub' = false)) /\
  (outcome (verifyGoogleIdToken w token) = Normal c ->
   exists response sub',
     axios_get w google_tokeninfo_url [("id_token", token)] = Normal response /\
     js_get (data response) "sub" = Normal sub' /\
     sub c = js_or sub' (JStr "") /\
     (truthy sub' = true -> sub c = sub') /\
     (sub c = JStr "" <-> truthy sub' = false)).
Proof.
  split; intros H.
  - apply apple_success in H
      as (response & keys & header & key & pem & payload & _ & _ & _ & _ & _ & _ & _ & _
          & Hverify & sub' & email' & ev' & Hsub & _ & _ & ->).
    exists pem, payload, sub'. cbn [sub].
    repeat split; try assumption; try apply js_or_empty.
    intros Ht. unfold js_or. now rewrite Ht.
  - apply google_success in H
      as (response & aud & sub' & email' & ev' & name' & Hax & _ & _ & Hsub & _ & _ & _ & ->).
    exists response, sub'. cbn [sub].
    repeat split; try assumption; try apply js_or_empty.
    intros Ht. unfold js_or. now rewrite Ht.
Qed.

(** A Google response that carries a subject. *)
Lemma success_subject_witness :
  exists response sub',
    axios_get (google_world {[ "GOOGLE_CLIENT_ID" := "web-client" ]}
                 (JObj [("aud", JStr "web-client"); ("sub", JStr "1089")]))
      google_tokeninfo_url [("id_token", "header.payload.signature")] = Normal response /\
    js_get (data response) "sub" = Normal sub' /\
    JStr "1089" = js_or sub' (JStr "") /\
    (truthy sub' = true -> JStr "1089" = sub') /\
    (JStr "1089" = JStr "" <-> truthy sub' = false).
Proof.
  apply (proj2 (success_subject_is_sub_or_empty
                  (google_world {[ "GOOGLE_CLIENT_ID" := "web-client" ]}
                     (JObj [("aud", JStr "web-client"); ("sub", JStr "1089")]))
                  "header.payload.signature"
                  {| sub := JStr "1089"; email := JStr "";
                     email_verified := false; name := JStr "" |})).
  vm_compute. reflexivity.
Defined.

(** ** Signature and claim checks of the Apple verifier *)

(** [process.env.APPLE_CLIENT_ID || 'com.aicalorie.app'] when the variable
    is unset or empty. *)
Lemma apple_client_id_default (w : World) :
  process_env w !! "APPLE_CLIENT_ID" = None \/
  process_env w !! "APPLE_CLIENT_ID" = Some "" ->
  env_or w "APPLE_CLIENT_ID" "com.aicalorie.app" = "com.aicalorie.app".
Proof. unfold env_or. intros [-> | ->]; reflexivity. Qed.

(** [process.env.APPLE_CLIENT_ID || 'com.aicalorie.app'] when the variable
    is set to a non-empty text. *)
Lemma apple_client_id_configured (w : World) (clientId : string) :
  process_env w !! "APPLE_CLIENT_ID" = Some clientId ->
  clientId <> "" ->
  env_or w "APPLE_CLIENT_ID" "com.aicalorie.app" = clientId.
Proof.
  intros Hset Hne. unfold env_or. rewrite Hset.
  apply String.eqb_neq in Hne. now rewrite Hne.
Qed.

(** The toy primitive of a configured application honours the contract. *)
Lemma configured_contract (clientId : string) :
  jwt_verify_contract toy_signature_valid toy_now (configured_apple_world clientId).
Proof.
  intros token pem opts payload. cbn [jwt_verify configured_apple_world].
  unfold configured_jwt_verify.
  destruct (existsb _ _ && _ && _) eqn:Hok; [| discriminate].
  intros [= <-].
  apply andb_true_iff in Hok as [Hok Hiss]. apply andb_true_iff in Hok as [Hsig Haud].
  apply String.eqb_eq in Hiss, Haud. apply existsb_exists in Hsig as (alg & Hin & Hsig).
  split; [eauto |]. rewrite Hiss, Haud.
  repeat split. intros (exp & Hexp & Hle).
  injection Hexp as <-. unfold toy_now in Hle. lia.
Qed.

(** C3. Claims are returned only after [jwt.verify] accepted the token
    under the key matched by [kid], with RS256 as the only algorithm, the
    audience [APPLE_CLIENT_ID] (or [com.aicalorie.app] when unconfigured)
    and the issuer [https://appleid.apple.com]; with the primitive's
    contract, the RS256 signature is valid for that key, [aud] and [iss]
    have these values and [exp] is not in the past.  The audience is the
    configured identifier whenever [APPLE_CLIENT_ID] is set to a non-empty
    text, and [com.aicalorie.app] when it is unset or empty.  A token
    failing one of the checks never yields claims. *)
Theorem apple_checks_signature_audience_issuer_expiry
    (signature_valid : string -> string -> Pem -> bool) (now : Z)
    (w : World) (identityToken : string) (c : IdentityClaims) :
  jwt_verify_contract signature_valid now w ->
  outcome (verifyAppleIdToken w identityToken) = Normal c ->
  exists response elems header key pem payload,
    axios_get w apple_keys_url [] = Normal response /\
    js_get (data response) "keys" = Normal (JArr elems) /\
    JSON_parse w (header_json w identityToken) = Normal header /\
    In key elems /\
    (exists kid header_kid,
       js_get key "kid" = Normal kid /\ js_get header "kid" = Normal header_kid /\
       strict_eq kid header_kid = true) /\
    jwkToPem w key = Normal pem /\
    jwt_verify w identityToken pem
      {| algorithms := ["RS256"];
         audience := env_or w "APPLE_CLIENT_ID" "com.aicalorie.app";
         issuer := "https://appleid.apple.com" |} = Normal payload /\
    signature_valid "RS256" identityToken pem = true /\
    claim_equals payload "aud" (env_or w "APPLE_CLIENT_ID" "com.aicalorie.app") /\
    (process_env w !! "APPLE_CLIENT_ID" = None ->
     claim_equals payload "aud" "com.aicalorie.app") /\
    claim_equals payload "iss" "https://appleid.apple.com" /\
    ~ expired now payload /\
    (forall clientId,
       process_env w !! "APPLE_CLIENT_ID" = Some clientId ->
       clientId <> "" ->
       jwt_verify w identityToken pem
         {| algorithms := ["RS256"];
            audience := clientId;
            issuer := "https://appleid.apple.com" |} = Normal payload /\
       claim_equals payload "aud" clientId) /\
    (process_env w !! "APPLE_CLIENT_ID" = None \/
     process_env w !! "APPLE_CLIENT_ID" = Some "" ->
     jwt_verify w identityToken pem
       {| algorithms := ["RS256"];
          audience := "com.aicalorie.app";
          issuer := "https://appleid.apple.com" |} = Normal payload /\
     claim_equals payload "aud" "com.aicalorie.app").
Proof.
  intros Hcontract H.
  apply apple_success in H
    as (response & keys & header & key & pem & payload & Hax & Hkeys & _ & _ & Hparse
        & Hfind & Htruthy & Hpem & Hverify & _).
  apply keys_find_found in Hfind as (elems & kid & hk & -> & Hin & Hk & Hh & Heq);
    [| exact Htruthy].
  destruct (Hcontract _ _ _ _ Hverify) as ((alg & Halg & Hsig) & Haud & Hiss & Hexp).
  cbn [algorithms audience issuer apple_verify_options] in *.
  destruct Halg as [<- | []].
  exists response, elems, header, key, pem, payload.
  do 4 (split; [assumption |]).
  split; [eauto |].
  do 4 (split; [assumption |]).
  split.
  { intros Hunset. rewrite <- (apple_client_id_default w (or_introl Hunset)). exact Haud. }
  do 2 (split; [assumption |]).
  split.
  - intros clientId Hset Hne.
    rewrite <- (apple_client_id_configured w clientId Hset Hne). split; assumption.
  - intros Hdefault. rewrite <- (apple_client_id_default w Hdefault). split; assumption.
Qed.

(** Two applications verify the toy token: one that configured the
    identifier [com.example.signin], and one that configured nothing. *)
Lemma apple_checks_witness :
  (exists pem payload,
     jwt_verify (configured_apple_world "com.example.signin") toy_token pem
       {| algorithms := ["RS256"];
          audience := "com.example.signin";
          issuer := "https://appleid.apple.com" |} = Normal payload /\
     toy_signature_valid "RS256" toy_token pem = true /\
     claim_equals payload "aud" "com.example.signin" /\
     claim_equals payload "iss" "https://appleid.apple.com" /\
     ~ expired toy_now payload) /\
  (exists pem payload,
     jwt_verify (apple_world toy_keys (JBool true)) toy_token pem
       {| algorithms := ["RS256"];
          audience := "com.aicalorie.app";
          issuer := "https://appleid.apple.com" |} = Normal payload /\
     toy_signature_valid "RS256" toy_token pem = true /\
     claim_equals payload "aud" "com.aicalorie.app" /\
     claim_equals payload "iss" "https://appleid.apple.com" /\
     ~ expired toy_now payload).
Proof.
  split.
  - destruct (apple_checks_signature_audience_issuer_expiry
                toy_signature_valid toy_now
                (configured_apple_world "com.example.signin") toy_token
                {| sub := JStr "001234.abcdef"; email := JStr "user@example.com";
                   email_verified := true; name := JStr "" |}
                (configured_contract "com.example.signin")
                ltac:(vm_compute; reflexivity))
      as (response & elems & header & key & pem & payload & _ & _ & _ & _ & _ & _ & _
          & Hsig & _ & _ & Hiss & Hexp & Hconfigured & _).
    destruct (Hconfigured "com.example.signin") as [Hverify Haud];
      [vm_compute; reflexivity | discriminate |].
    exists pem, payload. repeat split; assumption.
  - destruct (apple_checks_signature_audience_issuer_expiry
                toy_signature_valid toy_now
                (apple_world toy_keys (JBool true)) toy_token
                {| sub := JStr "001234.abcdef"; email := JStr "user@example.com";
                   email_verified := true; name := JStr "" |}
                (toy_contract toy_keys (JBool true))
                ltac:(vm_compute; reflexivity))
      as (response & elems & header & key & pem & payload & _ & _ & _ & _ & _ & _ & _
          & Hsig & _ & _ & Hiss & Hexp & _ & Hdefault).
    destruct Hdefault as [Hverify Haud]; [left; vm_compute; reflexivity |].
    exists pem, payload. repeat split; assumption.
Defined.

(** ** [email_verified] *)

(** C4. The Apple verifier returns [email_verified: true] exactly when the
    verified payload's [email_verified] is the boolean [true]; the string
    ["true"], any other value and an absent field give [false]. *)
Theorem apple_email_verified_iff_boolean_true
    (w : World) (identityToken : string) (c : IdentityClaims) :
  outcome (verifyAppleIdToken w identityToken) = Normal c ->
  exists pem payload email_verified',
    jwt_verify w identityToken pem
      (apple_verify_options (env_or w "APPLE_CLIENT_ID" "com.aicalorie.app"))
    = Normal payload /\
    js_get payload "email_verified" = Normal email_verified' /\
    (email_verified c = true <-> email_verified' = JBool true) /\
    (email_verified' = JStr "true" -> email_verified c = false) /\
    (email_verified' = JUndefined -> email_verified c = false).
Proof.
  intros H.
  apply apple_success in H
    as (response & keys & header & key & pem & payload & _ & _ & _ & _ & _ & _ & _ & _
        & Hverify & sub' & email' & ev' & _ & _ & Hev & ->).
  exists pem, payload, ev'. cbn [email_verified].
  split; [exact Hverify |]. split; [exact Hev |].
  split; [apply strict_eq_JBool_true |].
  split; intros ->; reflexivity.
Qed.

(** The toy token whose payload says [email_verified: "true"], a string. *)
Lemma apple_email_verified_witness :
  exists pem payload email_verified',
    jwt_verify (apple_world toy_keys (JStr "true")) toy_token pem
      (apple_verify_options
         (env_or (apple_world toy_keys (JStr "true")) "APPLE_CLIENT_ID" "com.aicalorie.app"))
    = Normal payload /\
    js_get payload "email_verified" = Normal email_verified' /\
    (false = true <-> email_verified' = JBool true) /\
    (email_verified' = JStr "true" -> false = false) /\
    (email_verified' = JUndefined -> false = false).
Proof.
  apply (apple_email_verified_iff_boolean_true
           (apple_world toy_keys (JStr "true")) toy_token
           {| sub := JStr "001234.abcdef"; email := JStr "user@example.com";
              email_verified := false; name := JStr "" |}).
  vm_compute. reflexivity.
Defined.

(** C5. The Google verifier returns [email_verified: true] exactly when the
    response's [email_verified] is the string ["true"]; ["false"], ["1"],
    the boolean [true] and an absent field give [false]. *)
Theorem google_email_verified_iff_string_true
    (w : World) (idToken : string) (c : IdentityClaims) :
  outcome (verifyGoogleIdToken w idToken) = Normal c ->
  exists response email_verified',
    axios_get w google_tokeninfo_url [("id_token", idToken)] = Normal response /\
    js_get (data response) "email_verified" = Normal email_verified' /\
    (email_verified c = true <-> email_verified' = JStr "true") /\
    (email_verified' = JStr "false" \/ email_verified' = JStr "1" \/
     email_verified' = JBool true \/ email_verified' = JUndefined ->
     email_verified c = false).
Proof.
  intros H.
  apply google_success in H
    as (response & aud & sub' & email' & ev' & name' & Hax & _ & _ & _ & _ & Hev & _ & ->).
  exists response, ev'. cbn [email_verified].
  split; [exact Hax |]. split; [exact Hev |].
  split; [apply strict_eq_JStr |].
  intros [-> | [-> | [-> | ->]]]; reflexivity.
Qed.

(** An introspection response whose [email_verified] is the boolean. *)
Lemma google_email_verified_witness :
  exists response email_verified',
    axios_get (google_world {[ "GOOGLE_IOS_CLIENT_ID" := "ios-client" ]}
                 (JObj [("aud", JStr "ios-client"); ("sub", JStr "1089");
                        ("email_verified", JBool true)]))
      google_tokeninfo_url [("id_token", "header.payload.signature")] = Normal response /\
    js_get (data response) "email_verified" = Normal email_verified' /\
    (false = true <-> email_verified' = JStr "true") /\
    (email_verified' = JStr "false" \/ email_verified' = JStr "1" \/
     email_verified' = JBool true \/ email_verified' = JUndefined ->
     false = false).
Proof.
  apply (google_email_verified_iff_string_true
           (google_world {[ "GOOGLE_IOS_CLIENT_ID" := "ios-client" ]}
              (JObj [("aud", JStr "ios-client"); ("sub", JStr "1089");
                     ("email_verified", JBool true)]))
           "header.payload.signature"
           {| sub := JStr "1089"; email := JStr "";
              email_verified := false; name := JStr "" |}).
  vm_compute. reflexivity.
Defined.

(** ** Structural failures of the Apple verifier *)

(** A run of the Apple verifier whose [try] block is known. *)
Lemma apple_guarded_run (w : World) (identityToken : string)
    (events : list Event) (msg : string) :
  (msg =? "")%string = false ->
  verifyAppleIdToken_try w identityToken = (events, Throw (Error msg)) ->
  verifyAppleIdToken w identityToken =
  ((events ++ [LogError [Lit "Apple token verification error: "; Sub (JStr msg)]])%list,
   Throw (Error "Failed to verify Apple token")).
Proof.
  intros Hmsg Htry. unfold verifyAppleIdToken. rewrite Htry.
  unfold catch_block, Error, js_or. cbn [try_catch].
  cbn [err_response err_request err_message truthy]. rewrite Hmsg. reflexivity.
Qed.

(** C6. When the key set was fetched and is not empty, a token that does
    not split on ['.'] into exactly three segments makes the [try] block
    throw [Invalid token format], whatever the configuration, and the
    verifier fails. *)
Theorem apple_rejects_wrong_segment_count (w : World) (identityToken : string)
    (response : HttpResponse) (keys : JSVal) :
  axios_get w apple_keys_url [] = Normal response ->
  js_get (data response) "keys" = Normal keys ->
  keys_usable keys = true ->
  List.length (split_dot identityToken) <> 3%nat ->
  outcome (verifyAppleIdToken_try w identityToken) = Throw (Error "Invalid token format") /\
  outcome (verifyAppleIdToken w identityToken) = Throw (Error "Failed to verify Apple token") /\
  (forall token pem opts,
     ~ In (JwtVerify token pem opts) (trace (verifyAppleIdToken w identityToken))).
Proof.
  intros Hax Hkeys Huse Hlen.
  pose proof (apple_run_bad_format w identityToken response keys Hax Hkeys Huse Hlen) as Htry.
  pose proof (fun Hmsg => apple_guarded_run w identityToken _ _ Hmsg Htry) as Hrun.
  specialize (Hrun eq_refl).
  rewrite Htry, Hrun. repeat split.
  intros token pem opts Hin. cbn in Hin.
  repeat (destruct Hin as [Hin | Hin]; [discriminate |]). exact Hin.
Qed.

(** A token of two segments, any configuration, a key set of two keys. *)
Lemma apple_wrong_segment_count_witness :
  outcome (verifyAppleIdToken_try (apple_world toy_keys (JBool true)) "k1.payload")
  = Throw (Error "Invalid token format") /\
  outcome (verifyAppleIdToken (apple_world toy_keys (JBool true)) "k1.payload")
  = Throw (Error "Failed to verify Apple token") /\
  (forall token pem opts,
     ~ In (JwtVerify token pem opts)
          (trace (verifyAppleIdToken (apple_world toy_keys (JBool true)) "k1.payload"))).
Proof.
  apply (apple_rejects_wrong_segment_count
           (apple_world toy_keys (JBool true)) "k1.payload"
           (mkResponse 200 (JObj [("keys", toy_keys)])) toy_keys).
  - reflexivity.
  - reflexivity.
  - reflexivity.
  - vm_compute. lia.
Defined.

(** C7. When the key-set response has no [keys] or an empty [keys] array,
    the [try] block throws [No Apple public keys available], the verifier
    fails, and [jwt.verify] is not called. *)
Theorem apple_rejects_empty_key_set (w : World) (identityToken : string)
    (response : HttpResponse) (keys : JSVal) :
  axios_get w apple_keys_url [] = Normal response ->
  js_get (data response) "keys" = Normal keys ->
  keys = JUndefined \/ keys = JNull \/ keys = JArr [] ->
  outcome (verifyAppleIdToken_try w identityToken)
  = Throw (Error "No Apple public keys available") /\
  outcome (verifyAppleIdToken w identityToken) = Throw (Error "Failed to verify Apple token") /\
  (forall token pem opts,
     ~ In (JwtVerify token pem opts) (trace (verifyAppleIdToken w identityToken))).
Proof.
  intros Hax Hkeys Hnone.
  pose proof (apple_run_no_keys w identityToken response keys Hax Hkeys Hnone) as Htry.
  pose proof (fun Hmsg => apple_guarded_run w identityToken _ _ Hmsg Htry) as Hrun.
  specialize (Hrun eq_refl).
  rewrite Htry, Hrun. repeat split.
  intros token pem opts Hin. cbn in Hin.
  repeat (destruct Hin as [Hin | Hin]; [discriminate |]). exact Hin.
Qed.

(** The toy token against a key set with zero keys. *)
Lemma apple_empty_key_set_witness :
  outcome (verifyAppleIdToken_try (apple_world (JArr []) (JBool true)) toy_token)
  = Throw (Error "No Apple public keys available") /\
  outcome (verifyAppleIdToken (apple_world (JArr []) (JBool true)) toy_token)
  = Throw (Error "Failed to verify Apple token") /\
  (forall token pem opts,
     ~ In (JwtVerify token pem opts)
          (trace (verifyAppleIdToken (apple_world (JArr []) (JBool true)) toy_token))).
Proof.
  apply (apple_rejects_empty_key_set
           (apple_world (JArr []) (JBool true)) toy_token
           (mkResponse 200 (JObj [("keys", JArr [])])) (JArr [])).
  - reflexivity.
  - reflexivity.
  - right. right. reflexivity.
Defined.




(** ** The error the caller sees *)

(** C9. Whatever made a verifier fail, the error it throws to its caller is
    one fixed [Error] per verifier, [Failed to verify Apple token] or
    [Failed to verify Google token]: it does not depend on the check that
    failed. *)
Theorem verifiers_fail_with_generic_error (w : World) (token : string) (e : JSError) :
  (outcome (verifyAppleIdToken w token) = Throw e ->
   e = Error "Failed to verify Apple token" /\
   err_message e = "Failed to verify Apple token" /\
   exists inner, outcome (verifyAppleIdToken_try w token) = Throw inner) /\
  (outcome (verifyGoogleIdToken w token) = Throw e ->
   e = Error "Failed to verify Google token" /\
   err_message e = "Failed to verify Google token" /\
   exists inner, outcome (verifyGoogleIdToken_try w token) = Throw inner).
Proof.
  unfold verifyAppleIdToken, verifyGoogleIdToken. rewrite !guarded_outcome.
  split.
  - destruct (outcome (verifyAppleIdToken_try w token)) as [c | inner];
      [discriminate |].
    intros [= <-]. repeat split. eauto.
  - destruct (outcome (verifyGoogleIdToken_try w token)) as [c | inner];
      [discriminate |].
    intros [= <-]. repeat split. eauto.
Qed.

(** A provider that answers [null]: the [try] block dies of a [TypeError],
    the caller is told the same as for every other failure. *)
Lemma generic_error_witness :
  Error "Failed to verify Google token" = Error "Failed to verify Google token" /\
  err_message (Error "Failed to verify Google token") = "Failed to verify Google token" /\
  exists inner,
    outcome (verifyGoogleIdToken_try (google_world ∅ JNull) "header.payload.signature")
    = Throw inner.
Proof.
  apply (proj2 (verifiers_fail_with_generic_error
                  (google_world ∅ JNull) "header.payload.signature"
                  (Error "Failed to verify Google token"))).
  reflexivity.
Defined.

(** ** No structural validation in the Google verifier *)

(** C10. For every input string the Google verifier first submits the raw
    string to the introspection endpoint as [id_token]; its [try] block
    only ever ends with the rejection of that call, a [TypeError] raised on
    the response, or [Token audience mismatch], never with an error about
    the shape of the token; and its outcome is determined by the
    provider's answer and the configuration. *)
Theorem google_no_structural_validation (w : World) (idToken : string) :
  (exists rest,
     trace (verifyGoogleIdToken w idToken) =
     LogInfo [Lit "Attempting to verify Google ID token"]
     :: HttpGet "https://oauth2.googleapis.com/tokeninfo" [("id_token", idToken)]
     :: rest) /\
  (forall e,
     outcome (verifyGoogleIdToken_try w idToken) = Throw e ->
     axios_get w google_tokeninfo_url [("id_token", idToken)] = Throw e \/
     exists response,
       axios_get w google_tokeninfo_url [("id_token", idToken)] = Normal response /\
       (err_name e = "TypeError" \/ e = Error "Token audience mismatch") /\
       e <> Error "Invalid token format" /\ e <> Error "Invalid token header") /\
  (forall w' idToken',
     env_or w' "GOOGLE_CLIENT_ID" "" = env_or w "GOOGLE_CLIENT_ID" "" ->
     env_or w' "GOOGLE_IOS_CLIENT_ID" "" = env_or w "GOOGLE_IOS_CLIENT_ID" "" ->
     axios_get w' google_tokeninfo_url [("id_token", idToken')] =
     axios_get w google_tokeninfo_url [("id_token", idToken)] ->
     outcome (verifyGoogleIdToken w' idToken') = outcome (verifyGoogleIdToken w idToken)).
Proof.
  split; [apply google_trace_prefix |].
  split; [| intros w' idToken'; apply google_outcome_determined].
  intros e He.
  destruct (google_try_errors w idToken e He) as [Hrej | (response & Hax & Hkind)];
    [now left | right].
  exists response. split; [exact Hax |]. split; [exact Hkind |].
  destruct Hkind as [Hname | ->]; [| split; discriminate].
  split; intros ->; discriminate.
Qed.

(** The empty string as token: it is sent as it is, and the failure is the
    audience mismatch of the answer. *)
Lemma google_empty_token_witness :
  axios_get (google_world ∅ (JObj [("aud", JStr "another-app")]))
    google_tokeninfo_url [("id_token", "")] = Throw (Error "Token audience mismatch") \/
  exists response,
    axios_get (google_world ∅ (JObj [("aud", JStr "another-app")]))
      google_tokeninfo_url [("id_token", "")] = Normal response /\
    (err_name (Error "Token audience mismatch") = "TypeError" \/
     Error "Token audience mismatch" = Error "Token audience mismatch") /\
    Error "Token audience mismatch" <> Error "Invalid token format" /\
    Error "Token audience mismatch" <> Error "Invalid token header".
Proof.
  apply (proj1 (proj2 (google_no_structural_validation
                         (google_world ∅ (JObj [("aud", JStr "another-app")])) ""))).
  reflexivity.
Defined.

(** * Further properties of the verifiers *)

(** ** Events of a run *)

Section TraceInvariants.

Variable P : Event -> Prop.

Lemma Forall_trace_bind {A B} (m : M A) (f : A -> M B) :
  Forall P (trace m) ->
  (forall a, outcome m = Normal a -> Forall P (trace (f a))) ->
  Forall P (trace (bind m f)).
Proof.
  intros Hm Hf. rewrite trace_bind. apply Forall_app. split; [exact Hm |].
  destruct (outcome m) as [a | e]; [now apply Hf | constructor].
Qed.

Lemma Forall_trace_try_catch {A} (body : M A) (handler : JSError -> M A) :
  Forall P (trace body) ->
  (forall e, outcome body = Throw e -> Forall P (trace (handler e))) ->
  Forall P (trace (try_catch body handler)).
Proof.
  intros Hb Hh. rewrite trace_try_catch. apply Forall_app. split; [exact Hb |].
  destruct (outcome body) as [a | e]; [constructor | now apply Hh].
Qed.

Lemma Forall_trace_lift {A} (c : Completion A) : Forall P (trace (lift c)).
Proof. constructor. Qed.

Lemma Forall_trace_logger_info (msg : list Frag) :
  (forall text, P (LogInfo text)) -> Forall P (trace (logger_info msg)).
Proof.
  intros HP. unfold logger_info, template.
  destruct (forallb frag_returns msg); repeat constructor. apply HP.
Qed.

Lemma Forall_trace_logger_error (msg : list Frag) :
  (forall text, P (LogError text)) -> Forall P (trace (logger_error msg)).
Proof.
  intros HP. unfold logger_error, template.
  destruct (forallb frag_returns msg); repeat constructor. apply HP.
Qed.

(** The [catch] block only writes log lines. *)
Lemma Forall_trace_catch_block {A} (w : World) (provider : string) (error : JSError) :
  (forall text, P (LogError text)) ->
  Forall P (trace (@catch_block w A provider error)).
Proof.
  intros HP. unfold catch_block.
  apply Forall_trace_bind; [now apply Forall_trace_logger_error | intros _ _].
  apply Forall_trace_bind; [| intros _ _; constructor].
  destruct (err_response error) as [response |].
  - apply Forall_trace_try_catch; [| intros _ _; now apply Forall_trace_logger_error].
    apply Forall_trace_bind; [now apply Forall_trace_logger_error | intros _ _].
    apply Forall_trace_bind; [apply Forall_trace_lift | intros body _].
    now apply Forall_trace_logger_error.
  - destruct (err_request error); [now apply Forall_trace_logger_error | constructor].
Qed.

End TraceInvariants.

(** Walks through a block and leaves the events that are no log lines. *)
Ltac walk_trace :=
  repeat first
    [ apply Forall_trace_lift
    | apply Forall_trace_logger_info; intros; reflexivity
    | apply Forall_trace_logger_error; intros; reflexivity
    | apply Forall_trace_bind; [| intros ? ?]
    | apply Forall_trace_try_catch; [| intros ? ?]
    | match goal with
      | |- Forall _ (trace (if ?c then _ else _)) => destruct c
      | |- Forall _ (trace (ret _)) => constructor
      | |- Forall _ (trace (throw _)) => constructor
      end
    | progress cbv zeta ].

Lemma filter_no_logs (events : list Event) :
  Forall (fun ev => is_log ev = true) events ->
  List.filter (fun ev => negb (is_log ev)) events = [].
Proof.
  induction 1 as [| ev rest Hev _ IH]; [reflexivity |].
  cbn [List.filter]. rewrite Hev. exact IH.
Qed.

(** X1. Every run of the Google verifier, successful or not, consists of log
    lines and exactly one outside call: the introspection request carrying
    the raw token.  There is no retry and no second request. *)
Theorem google_single_network_call (w : World) (idToken : string) :
  List.filter (fun ev => negb (is_log ev)) (trace (verifyGoogleIdToken w idToken))
  = [HttpGet "https://oauth2.googleapis.com/tokeninfo" [("id_token", idToken)]].
Proof.
  unfold verifyGoogleIdToken. rewrite trace_try_catch.
  unfold verifyGoogleIdToken_try, http_get.
  rewrite logger_info_lit, bind_emit. cbn [trace outcome fst snd].
  rewrite trace_bind, bind_emit. cbn [trace outcome fst snd app lift].
  cbn [List.filter is_log negb]. f_equal.
  apply filter_no_logs. apply Forall_app. split.
  - destruct (axios_get w _ _) as [response | e]; [| constructor].
    walk_trace.
  - match goal with |- Forall _ (match ?o with _ => _ end) => destruct o end;
      [constructor |].
    apply Forall_trace_catch_block. reflexivity.
Qed.

Lemma filter_logger_info (msg : list Frag) :
  List.filter (fun ev => negb (is_log ev)) (trace (logger_info msg)) = [].
Proof. apply filter_no_logs, Forall_trace_logger_info. reflexivity. Qed.

Lemma filter_logger_error (msg : list Frag) :
  List.filter (fun ev => negb (is_log ev)) (trace (logger_error msg)) = [].
Proof. apply filter_no_logs, Forall_trace_logger_error. reflexivity. Qed.

(** The outside calls of a guarded run are those of its [try] block. *)
Lemma filter_guarded {A} (w : World) (provider : string) (body : M A) :
  List.filter (fun ev => negb (is_log ev)) (trace (try_catch body (catch_block w provider)))
  = List.filter (fun ev => negb (is_log ev)) (trace body).
Proof.
  rewrite trace_try_catch, List.filter_app.
  rewrite (filter_no_logs (match outcome body with Normal _ => [] | Throw e => _ end)).
  - apply app_nil_r.
  - destruct (outcome body); [constructor |].
    apply Forall_trace_catch_block. reflexivity.
Qed.

(** One step of a walk along the outside calls of a block whose first
    part only writes log lines. *)
Ltac calls_step :=
  rewrite trace_bind, List.filter_app;
  match goal with
  | |- context [(List.filter _ (trace ?m) ++ _)%list] =>
      rewrite (filter_no_logs (trace m)) by walk_trace
  end;
  cbn [app].

Ltac calls_case x H :=
  match goal with
  | |- context [match outcome ?m with Normal _ => _ | Throw _ => _ end] =>
      destruct (outcome m) as [x | ?] eqn:H; [| now left]
  end.

(** X2. In every run of the Apple verifier the outside calls are, in this
    order: the key-set request; then, only for a key of the fetched set
    whose [kid] is the header's, [jwkToPem] on that key; then, only with
    the PEM text it returned, one [jwt.verify] of the raw token with the
    Apple options.  No key from elsewhere is ever used, and nothing is
    fetched twice. *)
Theorem apple_outside_calls (w : World) (identityToken : string) :
  List.filter (fun ev => negb (is_log ev)) (trace (verifyAppleIdToken w identityToken))
  = [HttpGet apple_keys_url []] \/
  exists response elems header key,
    axios_get w apple_keys_url [] = Normal response /\
    js_get (data response) "keys" = Normal (JArr elems) /\
    JSON_parse w (header_json w identityToken) = Normal header /\
    In key elems /\
    (exists kid header_kid,
       js_get key "kid" = Normal kid /\ js_get header "kid" = Normal header_kid /\
       strict_eq kid header_kid = true) /\
    ((exists e, jwkToPem w key = Throw e) /\
     List.filter (fun ev => negb (is_log ev)) (trace (verifyAppleIdToken w identityToken))
     = [HttpGet apple_keys_url []; JwkToPem key]
     \/
     exists pem,
       jwkToPem w key = Normal pem /\
       List.filter (fun ev => negb (is_log ev)) (trace (verifyAppleIdToken w identityToken))
       = [HttpGet apple_keys_url []; JwkToPem key;
          JwtVerify identityToken pem
            (apple_verify_options (env_or w "APPLE_CLIENT_ID" "com.aicalorie.app"))]).
Proof.
  unfold verifyAppleIdToken. rewrite filter_guarded.
  unfold verifyAppleIdToken_try, apple_keys_url, header_json.
  calls_step. rewrite logger_info_lit. cbn [outcome emit snd].
  rewrite trace_bind, List.filter_app.
  unfold http_get at 1. rewrite bind_emit.
  cbn [trace fst lift List.filter is_log negb app].
  rewrite outcome_http_get.
  destruct (axios_get w _ _) as [response |] eqn:Hax; [| now left].
  calls_step. rewrite outcome_lift.
  destruct (js_get (data response) "keys") as [keys |] eqn:Hkeys; [| now left].
  calls_step. calls_case no_keys Hguard.
  calls_step. calls_case u1 Hnone.
  calls_step. calls_case u2 Hformat.
  calls_step. calls_case header Hheader.
  calls_step. rewrite outcome_lift.
  destruct (keys_find keys header) as [key |] eqn:Hfind; [| now left].
  calls_step. calls_case u3 Hfound.
  assert (truthy key = true) as Htruthy.
  { destruct (truthy key); [reflexivity |]. cbn [negb] in Hfound.
    rewrite outcome_bind, outcome_lift in Hfound.
    destruct (js_get header "kid"); [| discriminate].
    now apply ends_with_throw in Hfound. }
  assert (JSON_parse w (Buffer_base64_toString w
            (url_safe_to_base64 (nth 0 (split_dot identityToken) ""))) = Normal header)
    as Hparse.
  { rewrite outcome_try_catch, outcome_lift in Hheader.
    destruct (JSON_parse w _) as [h |]; [exact Hheader |].
    now apply ends_with_throw in Hheader. }
  apply keys_find_found in Hfind as (elems & kid & hk & -> & Hin & Hk & Hh & Heq);
    [| exact Htruthy].
  right. exists response, elems, header, key.
  split; [reflexivity |].
  do 3 (split; [assumption |]). split; [eauto |].
  rewrite trace_bind, List.filter_app, bind_emit.
  cbn [trace outcome fst snd lift List.filter is_log negb app].
  destruct (jwkToPem w key) as [pem | e] eqn:Hpem.
  - right. exists pem. split; [reflexivity |].
    rewrite trace_bind, List.filter_app, bind_emit.
    cbn [trace outcome fst snd lift List.filter is_log negb app].
    do 3 f_equal. apply filter_no_logs.
    destruct (jwt_verify w _ _ _); [walk_trace | constructor].
  - left. split; [eauto | reflexivity].
Qed.

(** ** Runs of the Google verifier *)

(** X3. When the response carries a non-empty string [aud] that is the
    configured web or iOS identifier, the outcome is decided by the success
    log line.  If the logged [email || 'unknown'] has a string conversion,
    the Google verifier returns the claims [sub || ''], [email || ''],
    [email_verified === 'true'] and [name || ''] of the response, after
    logging the audience in full and the email.  If it has none (an object
    with an own [toString], or an array holding one), the template throws
    a [TypeError] and the verifier fails with the generic error. *)
Theorem google_accepts_configured_audience (w : World) (idToken : string)
    (response : HttpResponse) (a : string) (sub' email' email_verified' name' : JSVal) :
  axios_get w google_tokeninfo_url [("id_token", idToken)] = Normal response ->
  js_get (data response) "aud" = Normal (JStr a) ->
  a <> "" ->
  a = env_or w "GOOGLE_CLIENT_ID" "" \/ a = env_or w "GOOGLE_IOS_CLIENT_ID" "" ->
  js_get (data response) "sub" = Normal sub' ->
  js_get (data response) "email" = Normal email' ->
  js_get (data response) "email_verified" = Normal email_verified' ->
  js_get (data response) "name" = Normal name' ->
  (to_string_returns (js_or email' (JStr "unknown")) = true ->
   verifyGoogleIdToken w idToken =
   ([LogInfo [Lit "Attempting to verify Google ID token"];
     HttpGet google_tokeninfo_url [("id_token", idToken)];
     LogInfo [Lit "Token has audience: "; Sub (JStr a)];
     LogInfo [Lit "Successfully verified Google token for email: ";
              Sub (js_or email' (JStr "unknown"))]],
    Normal {| sub := js_or sub' (JStr "");
              email := js_or email' (JStr "");
              email_verified := strict_eq email_verified' (JStr "true");
              name := js_or name' (JStr "") |})) /\
  (to_string_returns (js_or email' (JStr "unknown")) = false ->
   verifyGoogleIdToken w idToken =
   ([LogInfo [Lit "Attempting to verify Google ID token"];
     HttpGet google_tokeninfo_url [("id_token", idToken)];
     LogInfo [Lit "Token has audience: "; Sub (JStr a)];
     LogError [Lit "Google token verification error: ";
               Sub (JStr "Cannot convert object to primitive value")]],
    Throw (Error "Failed to verify Google token"))).
Proof.
  intros Hax Haud Hne Hid Hsub Hemail Hev Hname.
  assert (strict_ne (JStr a) (JStr (env_or w "GOOGLE_CLIENT_ID" ""))
          && strict_ne (JStr a) (JStr (env_or w "GOOGLE_IOS_CLIENT_ID" "")) = false) as Hcheck.
  { unfold strict_ne. cbn [strict_eq].
    destruct Hid as [<- | <-]; rewrite String.eqb_refl; cbn [negb andb];
      [reflexivity | apply andb_false_r]. }
  apply String.eqb_neq in Hne.
  split; intros Hprint.
  - unfold verifyGoogleIdToken, verifyGoogleIdToken_try, google_tokeninfo_url in *. run.
    rewrite Hax. run. rewrite Haud. run.
    unfold js_or at 1 2 3. cbn [truthy]. rewrite Hne. cbn [negb].
    unfold template at 1. cbn [forallb frag_returns to_string_returns andb]. run.
    rewrite Hcheck. run. rewrite Hemail. run.
    unfold template. cbn [forallb frag_returns andb]. rewrite Hprint. run.
    rewrite Hsub. run. rewrite Hev. run. rewrite Hname. reflexivity.
  - unfold verifyGoogleIdToken, verifyGoogleIdToken_try, google_tokeninfo_url in *. run.
    rewrite Hax. run. rewrite Haud. run.
    unfold js_or at 1 2 3. cbn [truthy]. rewrite Hne. cbn [negb].
    unfold template at 1. cbn [forallb frag_returns to_string_returns andb]. run.
    rewrite Hcheck. run. rewrite Hemail. run.
    unfold template at 1. cbn [forallb frag_returns andb]. rewrite Hprint. run.
    reflexivity.
Qed.

(** End-to-end: the web identifier unset, the iOS identifier configured and
    returned as [aud]. *)
Lemma google_accepts_ios_witness :
  verifyGoogleIdToken
    (google_world {[ "GOOGLE_IOS_CLIENT_ID" := "ios-client" ]}
       (JObj [("aud", JStr "ios-client"); ("sub", JStr "1089");
              ("email", JStr "user@example.com"); ("email_verified", JStr "true");
              ("name", JStr "A User")]))
    "header.payload.signature" =
  ([LogInfo [Lit "Attempting to verify Google ID token"];
    HttpGet google_tokeninfo_url [("id_token", "header.payload.signature")];
    LogInfo [Lit "Token has audience: "; Sub (JStr "ios-client")];
    LogInfo [Lit "Successfully verified Google token for email: ";
             Sub (js_or (JStr "user@example.com") (JStr "unknown"))]],
   Normal {| sub := js_or (JStr "1089") (JStr "");
             email := js_or (JStr "user@example.com") (JStr "");
             email_verified := strict_eq (JStr "true") (JStr "true");
             name := js_or (JStr "A User") (JStr "") |}).
Proof.
  refine (proj1 (google_accepts_configured_audience
                   (google_world {[ "GOOGLE_IOS_CLIENT_ID" := "ios-client" ]}
                      (JObj [("aud", JStr "ios-client"); ("sub", JStr "1089");
                             ("email", JStr "user@example.com");
                             ("email_verified", JStr "true");
                             ("name", JStr "A User")]))
                   "header.payload.signature"
                   (mkResponse 200
                      (JObj [("aud", JStr "ios-client"); ("sub", JStr "1089");
                             ("email", JStr "user@example.com");
                             ("email_verified", JStr "true");
                             ("name", JStr "A User")]))
                   "ios-client" (JStr "1089") (JStr "user@example.com")
                   (JStr "true") (JStr "A User")
                   _ _ _ _ _ _ _ _) _).
  - reflexivity.
  - reflexivity.
  - discriminate.
  - right. vm_compute. reflexivity.
  - reflexivity.
  - reflexivity.
  - reflexivity.
  - reflexivity.
  - reflexivity.
Defined.

(** X4. An [aud] that is truthy but no string (a number, [true], an array, an
    object) never verifies: it equals no configured identifier, and the
    [try] block dies of a [TypeError] while it writes the log. *)
Theorem google_rejects_non_string_audience (w : World) (idToken : string)
    (response : HttpResponse) (aud : JSVal) :
  axios_get w google_tokeninfo_url [("id_token", idToken)] = Normal response ->
  js_get (data response) "aud" = Normal aud ->
  truthy aud = true ->
  (forall s, aud <> JStr s) ->
  (exists e, outcome (verifyGoogleIdToken_try w idToken) = Throw e /\
             err_name e = "TypeError") /\
  outcome (verifyGoogleIdToken w idToken) = Throw (Error "Failed to verify Google token").
Proof.
  intros Hax Haud Htruthy Hnostr.
  assert (exists e, outcome (verifyGoogleIdToken_try w idToken) = Throw e /\
                    err_name e = "TypeError") as (e & Htry & He).
  { unfold verifyGoogleIdToken_try, google_tokeninfo_url in *.
    rewrite outcome_bind, logger_info_lit. cbn [emit outcome snd].
    rewrite outcome_bind, outcome_http_get, Hax.
    rewrite outcome_bind, outcome_lift, Haud.
    unfold js_or. rewrite Htruthy.
    rewrite outcome_bind.
    destruct (outcome (logger_info _)) as [[] | e] eqn:Hlog.
    2: { exists e. split; [reflexivity |]. eapply logger_info_throw; eassumption. }
    assert (forall s, strict_ne aud (JStr s) = true) as Hne.
    { intros s. unfold strict_ne.
      destruct aud; try reflexivity. now destruct (Hnostr s0). }
    rewrite outcome_bind, !Hne. cbn [andb].
    rewrite outcome_bind, outcome_lift.
    destruct aud; try (eexists; split; reflexivity).
    now destruct (Hnostr s). }
  split; [eauto |].
  unfold verifyGoogleIdToken. rewrite guarded_outcome, Htry. reflexivity.
Qed.

(** A numeric [aud]. *)
Lemma google_numeric_audience_witness :
  (exists e,
     outcome (verifyGoogleIdToken_try
                (google_world {[ "GOOGLE_CLIENT_ID" := "web-client" ]}
                   (JObj [("aud", JNum 42); ("sub", JStr "1089")]))
                "header.payload.signature") = Throw e /\
     err_name e = "TypeError") /\
  outcome (verifyGoogleIdToken
             (google_world {[ "GOOGLE_CLIENT_ID" := "web-client" ]}
                (JObj [("aud", JNum 42); ("sub", JStr "1089")]))
             "header.payload.signature")
  = Throw (Error "Failed to verify Google token").
Proof.
  apply (google_rejects_non_string_audience
           (google_world {[ "GOOGLE_CLIENT_ID" := "web-client" ]}
              (JObj [("aud", JNum 42); ("sub", JStr "1089")]))
           "header.payload.signature"
           (mkResponse 200 (JObj [("aud", JNum 42); ("sub", JStr "1089")]))
           (JNum 42)).
  - reflexivity.
  - reflexivity.
  - reflexivity.
  - discriminate.
Defined.

(** ** What the mismatch log line shows of the identifiers *)

Lemma substring_0_prefix (n : nat) (s : string) :
  String.prefix (String.substring 0 n s) s = true.
Proof.
  revert n. induction s as [| c s IH]; intros [| n]; cbn; try reflexivity.
  destruct (ascii_dec c c) as [_ | Hne]; [apply IH | now destruct Hne].
Qed.

Lemma substring_0_length (n : nat) (s : string) :
  (String.length (String.substring 0 n s) <= n)%nat.
Proof.
  revert n. induction s as [| c s IH]; intros [| n]; cbn; try lia.
  specialize (IH n). lia.
Qed.

(** X5. For an ASCII client identifier, the text the mismatch log line
    shows is ["not set"] for an unset one, and otherwise at most the first
    six characters of the identifier followed by ["..."]: an identifier
    longer than six characters is never written out in full by that
    line. *)
Theorem id_prefix_shows_six_characters (clientId : string) :
  is_ascii clientId = true ->
  (clientId = "" -> id_prefix clientId = "not set") /\
  (clientId <> "" ->
   exists shown,
     id_prefix clientId = shown ++ "..." /\
     String.prefix shown clientId = true /\
     (String.length shown <= 6)%nat).
Proof.
  intros _. split.
  - intros ->. reflexivity.
  - intros Hne. apply String.eqb_neq in Hne. unfold id_prefix. rewrite Hne.
    exists (String.substring 0 6 clientId).
    split; [reflexivity |]. split; [apply substring_0_prefix | apply substring_0_length].
Qed.

(** A web client identifier of the usual shape. *)
Lemma id_prefix_six_characters_witness :
  ("1089-abc.apps.googleusercontent.com" = "" ->
   id_prefix "1089-abc.apps.googleusercontent.com" = "not set") /\
  ("1089-abc.apps.googleusercontent.com" <> "" ->
   exists shown,
     id_prefix "1089-abc.apps.googleusercontent.com" = shown ++ "..." /\
     String.prefix shown "1089-abc.apps.googleusercontent.com" = true /\
     (String.length shown <= 6)%nat).
Proof.
  apply (id_prefix_shows_six_characters "1089-abc.apps.googleusercontent.com").
  reflexivity.
Defined.

(** X6. The whole run on an audience mismatch, for an ASCII audience and
    ASCII identifiers: the audience is logged, the error line shows
    prefixes only, and the caller gets the generic error. *)
Theorem google_mismatch_run (w : World) (idToken : string)
    (response : HttpResponse) (aud : JSVal) (a : string) :
  axios_get w google_tokeninfo_url [("id_token", idToken)] = Normal response ->
  js_get (data response) "aud" = Normal aud ->
  js_or aud (JStr "") = JStr a ->
  a <> env_or w "GOOGLE_CLIENT_ID" "" ->
  a <> env_or w "GOOGLE_IOS_CLIENT_ID" "" ->
  is_ascii a = true ->
  is_ascii (env_or w "GOOGLE_CLIENT_ID" "") = true ->
  is_ascii (env_or w "GOOGLE_IOS_CLIENT_ID" "") = true ->
  verifyGoogleIdToken w idToken =
  ([LogInfo [Lit "Attempting to verify Google ID token"];
    HttpGet google_tokeninfo_url [("id_token", idToken)];
    LogInfo [Lit "Token has audience: "; Sub (JStr a)];
    LogError [Lit "Token audience mismatch: "; Sub (JStr (String.substring 0 6 a));
              Lit "... does not match web (";
              Sub (JStr (id_prefix (env_or w "GOOGLE_CLIENT_ID" "")));
              Lit ") or iOS (";
              Sub (JStr (id_prefix (env_or w "GOOGLE_IOS_CLIENT_ID" "")));
              Lit ")"];
    LogError [Lit "Google token verification error: ";
              Sub (JStr "Token audience mismatch")]],
   Throw (Error "Failed to verify Google token")).
Proof.
  intros Hax Haud Ha Hweb Hios _ _ _.
  apply String.eqb_neq in Hweb, Hios.
  unfold verifyGoogleIdToken, verifyGoogleIdToken_try, google_tokeninfo_url in *. run.
  rewrite Hax. run. rewrite Haud. run. rewrite Ha.
  unfold strict_ne. cbn [strict_eq]. rewrite Hweb, Hios. reflexivity.
Qed.

(** An audience issued for another application. *)
Lemma google_mismatch_witness :
  verifyGoogleIdToken
    (google_world {[ "GOOGLE_CLIENT_ID" := "web-client-1234567890" ]}
       (JObj [("aud", JStr "another-application")]))
    "header.payload.signature" =
  ([LogInfo [Lit "Attempting to verify Google ID token"];
    HttpGet google_tokeninfo_url [("id_token", "header.payload.signature")];
    LogInfo [Lit "Token has audience: "; Sub (JStr "another-application")];
    LogError [Lit "Token audience mismatch: "; Sub (JStr "anothe");
              Lit "... does not match web ("; Sub (JStr "web-cl...");
              Lit ") or iOS ("; Sub (JStr "not set"); Lit ")"];
    LogError [Lit "Google token verification error: ";
              Sub (JStr "Token audience mismatch")]],
   Throw (Error "Failed to verify Google token")).
Proof.
  etransitivity.
  - apply (google_mismatch_run
             (google_world {[ "GOOGLE_CLIENT_ID" := "web-client-1234567890" ]}
                (JObj [("aud", JStr "another-application")]))
             "header.payload.signature"
             (mkResponse 200 (JObj [("aud", JStr "another-application")]))
             (JStr "another-application") "another-application").
    + reflexivity.
    + reflexivity.
    + reflexivity.
    + vm_compute. discriminate.
    + vm_compute. discriminate.
    + reflexivity.
    + vm_compute. reflexivity.
    + vm_compute. reflexivity.
  - vm_compute. reflexivity.
Defined.

(** ** Failures of the provider call *)

(** The lines the [catch] block writes after the line with the message:
    status and body of the response when the error carries one (the body
    line replaced by a note when [JSON.stringify] throws), a note when the
    request got no response, nothing otherwise. *)
Lemma catch_block_run {A} (w : World) (provider : string) (error : JSError) :
  @catch_block w A provider error =
  (LogError [Lit (provider ++ " token verification error: ");
             Sub (js_or (JStr (err_message error)) (JStr "Unknown error"))]
   :: match err_response error with
      | Some response =>
          LogError [Lit "Response status: "; Sub (JNum (status response))]
          :: match JSON_stringify w (data response) with
             | Normal body => [LogError [Lit "Response data: "; Sub (JStr body)]]
             | Throw _ => [LogError [Lit "Error logging response details"]]
             end
      | None =>
          if err_request error
          then [LogError [Lit ("No response received from " ++ provider)]]
          else []
      end,
   Throw (Error ("Failed to verify " ++ provider ++ " token"))).
Proof.
  unfold catch_block, js_or.
  destruct (truthy (JStr (err_message error)));
    (destruct (err_response error) as [response |];
     [destruct (JSON_stringify w (data response)) | destruct (err_request error)]);
    reflexivity.
Qed.

(** X7. When the introspection request fails, the Google verifier returns no
    claims and throws the generic error; it logs the error's message, then
    the status and body of the error's response if there is one, or that no
    response was received.  A failure of [JSON.stringify] on the body is
    logged and changes nothing else. *)
Theorem google_provider_failure_run (w : World) (idToken : string) (error : JSError) :
  axios_get w google_tokeninfo_url [("id_token", idToken)] = Throw error ->
  verifyGoogleIdToken w idToken =
  (LogInfo [Lit "Attempting to verify Google ID token"]
   :: HttpGet google_tokeninfo_url [("id_token", idToken)]
   :: LogError [Lit "Google token verification error: ";
                Sub (js_or (JStr (err_message error)) (JStr "Unknown error"))]
   :: match err_response error with
      | Some response =>
          LogError [Lit "Response status: "; Sub (JNum (status response))]
          :: match JSON_stringify w (data response) with
             | Normal body => [LogError [Lit "Response data: "; Sub (JStr body)]]
             | Throw _ => [LogError [Lit "Error logging response details"]]
             end
      | None =>
          if err_request error
          then [LogError [Lit "No response received from Google"]]
          else []
      end,
   Throw (Error "Failed to verify Google token")).
Proof.
  intros Hax.
  unfold verifyGoogleIdToken, verifyGoogleIdToken_try, google_tokeninfo_url in *.
  rewrite logger_info_lit. unfold http_get. rewrite !bind_emit.
  cbn [trace outcome fst snd bind lift]. rewrite Hax.
  cbn [trace outcome fst snd try_catch]. rewrite catch_block_run. reflexivity.
Qed.

(** Google answers 400 to an invalid token, and the body cannot be
    serialised for the log. *)
Lemma google_provider_failure_witness :
  verifyGoogleIdToken
    (offline_world
       (mkError "AxiosError" "Request failed with status code 400"
          (Some (mkResponse 400 (JObj [("error", JStr "invalid_token")]))) true)
       (fun _ => Throw (TypeError "Converting circular structure to JSON")))
    "not-a-token" =
  ([LogInfo [Lit "Attempting to verify Google ID token"];
    HttpGet google_tokeninfo_url [("id_token", "not-a-token")];
    LogError [Lit "Google token verification error: ";
              Sub (JStr "Request failed with status code 400")];
    LogError [Lit "Response status: "; Sub (JNum 400)];
    LogError [Lit "Error logging response details"]],
   Throw (Error "Failed to verify Google token")).
Proof.
  apply (google_provider_failure_run
           (offline_world
              (mkError "AxiosError" "Request failed with status code 400"
                 (Some (mkResponse 400 (JObj [("error", JStr "invalid_token")]))) true)
              (fun _ => Throw (TypeError "Converting circular structure to JSON")))
           "not-a-token"
           (mkError "AxiosError" "Request failed with status code 400"
              (Some (mkResponse 400 (JObj [("error", JStr "invalid_token")]))) true)).
  reflexivity.
Defined.

(** X8. The same for the Apple verifier when the key-set request fails: the
    token is not looked at, no key is converted, nothing is verified. *)
Theorem apple_key_source_failure_run (w : World) (identityToken : string) (error : JSError) :
  axios_get w apple_keys_url [] = Throw error ->
  verifyAppleIdToken w identityToken =
  (LogInfo [Lit "Attempting to verify Apple ID token"]
   :: HttpGet apple_keys_url []
   :: LogError [Lit "Apple token verification error: ";
                Sub (js_or (JStr (err_message error)) (JStr "Unknown error"))]
   :: match err_response error with
      | Some response =>
          LogError [Lit "Response status: "; Sub (JNum (status response))]
          :: match JSON_stringify w (data response) with
             | Normal body => [LogError [Lit "Response data: "; Sub (JStr body)]]
             | Throw _ => [LogError [Lit "Error logging response details"]]
             end
      | None =>
          if err_request error
          then [LogError [Lit "No response received from Apple"]]
          else []
      end,
   Throw (Error "Failed to verify Apple token")).
Proof.
  intros Hax.
  unfold verifyAppleIdToken, verifyAppleIdToken_try, apple_keys_url in *.
  rewrite logger_info_lit. unfold http_get. rewrite !bind_emit.
  cbn [trace outcome fst snd bind lift]. rewrite Hax.
  cbn [trace outcome fst snd try_catch]. rewrite catch_block_run. reflexivity.
Qed.

(** A timeout: the request was sent, no response came, the message is
    empty. *)
Lemma apple_key_source_failure_witness :
  verifyAppleIdToken
    (offline_world (mkError "AxiosError" "" None true) no_stringify) toy_token =
  ([LogInfo [Lit "Attempting to verify Apple ID token"];
    HttpGet apple_keys_url [];
    LogError [Lit "Apple token verification error: "; Sub (JStr "Unknown error")];
    LogError [Lit "No response received from Apple"]],
   Throw (Error "Failed to verify Apple token")).
Proof.
  apply (apple_key_source_failure_run
           (offline_world (mkError "AxiosError" "" None true) no_stringify) toy_token
           (mkError "AxiosError" "" None true)).
  reflexivity.
Defined.

(** ** Runs of the Apple verifier past the format check *)

(** Runs the Apple [try] block up to the decoding of the header. *)
Ltac apple_to_header Hax Hkeys Huse Hlen :=
  let Ht := fresh "Ht" in
  let Hl := fresh "Hl" in
  let Hget := fresh "Hget" in
  unfold keys_usable in Huse; apply andb_true_iff in Huse as [Ht Hl];
  destruct (js_get _ "length") as [? |] eqn:Hget in Hl; [| discriminate];
  apply negb_true_iff in Hl;
  unfold verifyAppleIdToken_try, header_json, apple_keys_url in *; run;
  rewrite Hax; run; rewrite Hkeys; run; rewrite Ht; run;
  rewrite Hget; run; rewrite Hl; run; rewrite Hlen; cbn [Nat.eqb negb]; run.

(** X9. A first segment that does not decode to JSON: the [try] block throws
    [Invalid token header] after logging the parser's message; no key is
    looked up or converted and [jwt.verify] is not called. *)
Theorem apple_rejects_undecodable_header (w : World) (identityToken : string)
    (response : HttpResponse) (keys : JSVal) (error : JSError) :
  axios_get w apple_keys_url [] = Normal response ->
  js_get (data response) "keys" = Normal keys ->
  keys_usable keys = true ->
  List.length (split_dot identityToken) = 3%nat ->
  JSON_parse w (header_json w identityToken) = Throw error ->
  verifyAppleIdToken_try w identityToken =
  ([LogInfo [Lit "Attempting to verify Apple ID token"];
    HttpGet apple_keys_url [];
    LogError [Lit "Failed to decode token header: "; Sub (JStr (err_message error))]],
   Throw (Error "Invalid token header")) /\
  outcome (verifyAppleIdToken w identityToken) = Throw (Error "Failed to verify Apple token").
Proof.
  intros Hax Hkeys Huse Hlen Hparse.
  assert (verifyAppleIdToken_try w identityToken =
          ([LogInfo [Lit "Attempting to verify Apple ID token"];
            HttpGet apple_keys_url [];
            LogError [Lit "Failed to decode token header: ";
                      Sub (JStr (err_message error))]],
           Throw (Error "Invalid token header"))) as Htry.
  { apple_to_header Hax Hkeys Huse Hlen. rewrite Hparse. reflexivity. }
  split; [exact Htry |].
  unfold verifyAppleIdToken. rewrite guarded_outcome, Htry. reflexivity.
Qed.

(** The toy token against a parser that rejects its header. *)
Lemma apple_undecodable_header_witness :
  verifyAppleIdToken_try undecodable_world toy_token =
  ([LogInfo [Lit "Attempting to verify Apple ID token"];
    HttpGet apple_keys_url [];
    LogError [Lit "Failed to decode token header: ";
              Sub (JStr "Unexpected token k in JSON at position 0")]],
   Throw (Error "Invalid token header")) /\
  outcome (verifyAppleIdToken undecodable_world toy_token)
  = Throw (Error "Failed to verify Apple token").
Proof.
  apply (apple_rejects_undecodable_header undecodable_world toy_token
           (mkResponse 200 (JObj [("keys", toy_keys)])) toy_keys
           (mkError "SyntaxError" "Unexpected token k in JSON at position 0" None false)).
  - reflexivity.
  - reflexivity.
  - reflexivity.
  - reflexivity.
  - reflexivity.
Defined.

(** Runs the Apple [try] block up to the conversion of the matched key. *)
Ltac apple_to_key Hax Hkeys Huse Hlen Hparse Hfind Htruthy :=
  apple_to_header Hax Hkeys Huse Hlen;
  rewrite Hparse; run; rewrite Hfind; run; rewrite Htruthy; run.

(** X10. When [jwkToPem] rejects the matched key, its error ends the [try]
    block: [jwt.verify] is not called and no claims are returned. *)
Theorem apple_rejects_unconvertible_key (w : World) (identityToken : string)
    (response : HttpResponse) (keys header key : JSVal) (error : JSError) :
  axios_get w apple_keys_url [] = Normal response ->
  js_get (data response) "keys" = Normal keys ->
  keys_usable keys = true ->
  List.length (split_dot identityToken) = 3%nat ->
  JSON_parse w (header_json w identityToken) = Normal header ->
  keys_find keys header = Normal key ->
  truthy key = true ->
  jwkToPem w key = Throw error ->
  verifyAppleIdToken_try w identityToken =
  ([LogInfo [Lit "Attempting to verify Apple ID token"];
    HttpGet apple_keys_url [];
    JwkToPem key],
   Throw error) /\
  outcome (verifyAppleIdToken w identityToken) = Throw (Error "Failed to verify Apple token").
Proof.
  intros Hax Hkeys Huse Hlen Hparse Hfind Htruthy Hpem.
  assert (verifyAppleIdToken_try w identityToken =
          ([LogInfo [Lit "Attempting to verify Apple ID token"];
            HttpGet apple_keys_url []; JwkToPem key], Throw error)) as Htry.
  { apple_to_key Hax Hkeys Huse Hlen Hparse Hfind Htruthy. rewrite Hpem. reflexivity. }
  split; [exact Htry |].
  unfold verifyAppleIdToken. rewrite guarded_outcome, Htry. reflexivity.
Qed.

(** The toy token, its key found, but not convertible. *)
Lemma apple_unconvertible_key_witness :
  verifyAppleIdToken_try unconvertible_world toy_token =
  ([LogInfo [Lit "Attempting to verify Apple ID token"];
    HttpGet apple_keys_url [];
    JwkToPem (JObj [("kid", JStr "k1")])],
   Throw (Error "Expected: key.kty")) /\
  outcome (verifyAppleIdToken unconvertible_world toy_token)
  = Throw (Error "Failed to verify Apple token").
Proof.
  apply (apple_rejects_unconvertible_key unconvertible_world toy_token
           (mkResponse 200 (JObj [("keys", toy_keys)])) toy_keys
           (JObj [("kid", JStr "k1")]) (JObj [("kid", JStr "k1")])
           (Error "Expected: key.kty")).
  - reflexivity.
  - reflexivity.
  - reflexivity.
  - reflexivity.
  - reflexivity.
  - reflexivity.
  - reflexivity.
  - reflexivity.
Defined.

(** X11. When [jwt.verify] rejects the token (bad signature, wrong audience or
    issuer, expired), its error ends the [try] block right after the one
    call, and the caller gets the generic error. *)
Theorem apple_rejects_unverified_token (w : World) (identityToken : string)
    (response : HttpResponse) (keys header key : JSVal) (pem : Pem) (error : JSError) :
  axios_get w apple_keys_url [] = Normal response ->
  js_get (data response) "keys" = Normal keys ->
  keys_usable keys = true ->
  List.length (split_dot identityToken) = 3%nat ->
  JSON_parse w (header_json w identityToken) = Normal header ->
  keys_find keys header = Normal key ->
  truthy key = true ->
  jwkToPem w key = Normal pem ->
  jwt_verify w identityToken pem
    (apple_verify_options (env_or w "APPLE_CLIENT_ID" "com.aicalorie.app")) = Throw error ->
  verifyAppleIdToken_try w identityToken =
  ([LogInfo [Lit "Attempting to verify Apple ID token"];
    HttpGet apple_keys_url [];
    JwkToPem key;
    JwtVerify identityToken pem
      (apple_verify_options (env_or w "APPLE_CLIENT_ID" "com.aicalorie.app"))],
   Throw error) /\
  outcome (verifyAppleIdToken w identityToken) = Throw (Error "Failed to verify Apple token").
Proof.
  intros Hax Hkeys Huse Hlen Hparse Hfind Htruthy Hpem Hverify.
  assert (verifyAppleIdToken_try w identityToken =
          ([LogInfo [Lit "Attempting to verify Apple ID token"];
            HttpGet apple_keys_url []; JwkToPem key;
            JwtVerify identityToken pem
              (apple_verify_options (env_or w "APPLE_CLIENT_ID" "com.aicalorie.app"))],
           Throw error)) as Htry.
  { apple_to_key Hax Hkeys Huse Hlen Hparse Hfind Htruthy.
    rewrite Hpem. run. rewrite Hverify. reflexivity. }
  split; [exact Htry |].
  unfold verifyAppleIdToken. rewrite guarded_outcome, Htry. reflexivity.
Qed.

(** A token that names the key [k1] but is not the one the toy primitive
    accepts. *)
Lemma apple_unverified_token_witness :
  verifyAppleIdToken_try (apple_world toy_keys (JBool true)) "k1.forged.signature" =
  ([LogInfo [Lit "Attempting to verify Apple ID token"];
    HttpGet apple_keys_url [];
    JwkToPem (JObj [("kid", JStr "k1")]);
    JwtVerify "k1.forged.signature" "PEM:k1"
      (apple_verify_options
         (env_or (apple_world toy_keys (JBool true)) "APPLE_CLIENT_ID" "com.aicalorie.app"))],
   Throw (mkError "JsonWebTokenError" "invalid token" None false)) /\
  outcome (verifyAppleIdToken (apple_world toy_keys (JBool true)) "k1.forged.signature")
  = Throw (Error "Failed to verify Apple token").
Proof.
  apply (apple_rejects_unverified_token
           (apple_world toy_keys (JBool true)) "k1.forged.signature"
           (mkResponse 200 (JObj [("keys", toy_keys)])) toy_keys
           (JObj [("kid", JStr "k1")]) (JObj [("kid", JStr "k1")]) "PEM:k1"
           (mkError "JsonWebTokenError" "invalid token" None false)).
  - reflexivity.
  - reflexivity.
  - reflexivity.
  - reflexivity.
  - reflexivity.
  - reflexivity.
  - reflexivity.
  - reflexivity.
  - reflexivity.
Defined.

(** X12. When every step passes, the outcome is decided by the success log
    line.  If the logged [sub || 'unknown'] has a string conversion, the
    Apple verifier returns [sub || ''], [email || ''],
    [email_verified === true] of the verified payload and an empty [name];
    the run is the key-set request, the conversion of the matched key, the
    one [jwt.verify], and a log line with the subject.  If it has none (an
    object with an own [toString], or an array holding one), the template
    throws a [TypeError] after the token was verified, and the verifier
    fails with the generic error. *)
Theorem apple_accepts_verified_token (w : World) (identityToken : string)
    (response : HttpResponse) (keys header key : JSVal) (pem : Pem)
    (payload sub' email' email_verified' : JSVal) :
  axios_get w apple_keys_url [] = Normal response ->
  js_get (data response) "keys" = Normal keys ->
  keys_usable keys = true ->
  List.length (split_dot identityToken) = 3%nat ->
  JSON_parse w (header_json w identityToken) = Normal header ->
  keys_find keys header = Normal key ->
  truthy key = true ->
  jwkToPem w key = Normal pem ->
  jwt_verify w identityToken pem
    (apple_verify_options (env_or w "APPLE_CLIENT_ID" "com.aicalorie.app")) = Normal payload ->
  js_get payload "sub" = Normal sub' ->
  js_get payload "email" = Normal email' ->
  js_get payload "email_verified" = Normal email_verified' ->
  (to_string_returns (js_or sub' (JStr "unknown")) = true ->
   verifyAppleIdToken w identityToken =
   ([LogInfo [Lit "Attempting to verify Apple ID token"];
     HttpGet apple_keys_url [];
     JwkToPem key;
     JwtVerify identityToken pem
       (apple_verify_options (env_or w "APPLE_CLIENT_ID" "com.aicalorie.app"));
     LogInfo [Lit "Successfully verified Apple token for subject: ";
              Sub (js_or sub' (JStr "unknown"))]],
    Normal {| sub := js_or sub' (JStr "");
              email := js_or email' (JStr "");
              email_verified := strict_eq email_verified' (JBool true);
              name := JStr "" |})) /\
  (to_string_returns (js_or sub' (JStr "unknown")) = false ->
   verifyAppleIdToken w identityToken =
   ([LogInfo [Lit "Attempting to verify Apple ID token"];
     HttpGet apple_keys_url [];
     JwkToPem key;
     JwtVerify identityToken pem
       (apple_verify_options (env_or w "APPLE_CLIENT_ID" "com.aicalorie.app"));
     LogError [Lit "Apple token verification error: ";
               Sub (JStr "Cannot convert object to primitive value")]],
    Throw (Error "Failed to verify Apple token"))).
Proof.
  intros Hax Hkeys Huse Hlen Hparse Hfind Htruthy Hpem Hverify Hsub Hemail Hev.
  unfold verifyAppleIdToken.
  apple_to_key Hax Hkeys Huse Hlen Hparse Hfind Htruthy.
  rewrite Hpem. run. rewrite Hverify. run. rewrite Hsub. run.
  split; intros Hprint.
  - unfold template. cbn [forallb frag_returns andb]. rewrite Hprint. run.
    rewrite Hemail. run. rewrite Hev. reflexivity.
  - unfold template at 1. cbn [forallb frag_returns andb]. rewrite Hprint. run.
    reflexivity.
Qed.

(** End-to-end: the toy token, its key in the set, the default audience. *)
Lemma apple_accepts_witness :
  verifyAppleIdToken (apple_world toy_keys (JBool true)) toy_token =
  ([LogInfo [Lit "Attempting to verify Apple ID token"];
    HttpGet apple_keys_url [];
    JwkToPem (JObj [("kid", JStr "k1")]);
    JwtVerify toy_token "PEM:k1"
      (apple_verify_options
         (env_or (apple_world toy_keys (JBool true)) "APPLE_CLIENT_ID" "com.aicalorie.app"));
    LogInfo [Lit "Successfully verified Apple token for subject: ";
             Sub (js_or (JStr "001234.abcdef") (JStr "unknown"))]],
   Normal {| sub := js_or (JStr "001234.abcdef") (JStr "");
             email := js_or (JStr "user@example.com") (JStr "");
             email_verified := strict_eq (JBool true) (JBool true);
             name := JStr "" |}).
Proof.
  refine (proj1 (apple_accepts_verified_token
                   (apple_world toy_keys (JBool true)) toy_token
                   (mkResponse 200 (JObj [("keys", toy_keys)])) toy_keys
                   (JObj [("kid", JStr "k1")]) (JObj [("kid", JStr "k1")]) "PEM:k1"
                   (toy_payload (JBool true))
                   (JStr "001234.abcdef") (JStr "user@example.com") (JBool true)
                   _ _ _ _ _ _ _ _ _ _ _ _) _).
  - reflexivity.
  - reflexivity.
  - reflexivity.
  - reflexivity.
  - reflexivity.
  - reflexivity.
  - reflexivity.
  - reflexivity.
  - reflexivity.
  - reflexivity.
  - reflexivity.
  - reflexivity.
  - reflexivity.
Defined.

(** ** The key lookup *)



(** X14. An entry whose [kid] cannot be read ([null] in the key set) ends the
    lookup with its [TypeError] when no earlier entry matched, even if a
    matching key follows. *)
Theorem keys_find_unreadable_entry (before after : list JSVal)
    (entry header header_kid : JSVal) (error : JSError) :
  js_get header "kid" = Normal header_kid ->
  Forall (fun earlier => exists earlier_kid,
            js_get earlier "kid" = Normal earlier_kid /\
            strict_eq earlier_kid header_kid = false) before ->
  js_get entry "kid" = Throw error ->
  keys_find (JArr (before ++ entry :: after)) header = Throw error /\
  err_name error = "TypeError".
Proof.
  intros Hh Hbefore He. split; [| eapply js_get_throw; eassumption].
  cbn [keys_find].
  induction Hbefore as [| earlier rest (earlier_kid & Hk & Hne) _ IH]; cbn [app find_key].
  - rewrite He. reflexivity.
  - rewrite Hk, Hh, Hne. exact IH.
Qed.

(** [null] before the key the header names. *)
Lemma keys_find_unreadable_entry_witness :
  keys_find (JArr ([JObj [("kid", JStr "k0")]] ++ JNull :: [JObj [("kid", JStr "k1")]]))
    (JObj [("kid", JStr "k1")])
  = Throw (TypeError "Cannot read properties of null (reading 'kid')") /\
  err_name (TypeError "Cannot read properties of null (reading 'kid')") = "TypeError".
Proof.
  apply (keys_find_unreadable_entry
           [JObj [("kid", JStr "k0")]] [JObj [("kid", JStr "k1")]]
           JNull (JObj [("kid", JStr "k1")]) (JStr "k1")).
  - reflexivity.
  - repeat constructor. eexists. split; reflexivity.
  - reflexivity.
Defined.

(** ** Segments of a token *)

Lemma split_dot_not_nil (s : string) : split_dot s <> [].
Proof.
  destruct s as [| c rest]; cbn; [discriminate |].
  destruct (Ascii.eqb c "."); [discriminate |].
  destruct (split_dot rest); discriminate.
Qed.

Lemma split_dot_length (s : string) :
  List.length (split_dot s) = S (count_dots s).
Proof.
  induction s as [| c rest IH]; cbn; [reflexivity |].
  destruct (Ascii.eqb c "."); cbn; [now rewrite IH |].
  destruct (split_dot rest) as [| seg segs] eqn:E; [now destruct (split_dot_not_nil rest) |].
  exact IH.
Qed.

(** X15. The format check passes exactly for the tokens with two ['.']: the three
    segments may be empty, and their content is not looked at. *)
Theorem format_check_counts_dots (identityToken : string) :
  negb (List.length (split_dot identityToken) =? 3)%nat = false
  <-> count_dots identityToken = 2%nat.
Proof.
  rewrite negb_false_iff, Nat.eqb_eq, split_dot_length. lia.
Qed.

(** X16. Joining the segments with ['.'] gives the token back: splitting loses
    nothing. *)
Theorem join_dot_split_dot (s : string) : join_dot (split_dot s) = s.
Proof.
  induction s as [| c rest IH]; cbn; [reflexivity |].
  destruct (Ascii.eqb_spec c ".") as [-> | Hc].
  - cbn [join_dot]. destruct (split_dot rest) as [| seg segs] eqn:E;
      [now destruct (split_dot_not_nil rest) |].
    rewrite IH. reflexivity.
  - destruct (split_dot rest) as [| seg segs] eqn:E;
      [now destruct (split_dot_not_nil rest) |].
    rewrite <- IH. destruct segs as [| seg2 segs]; reflexivity.
Qed.

(** ** The header's alphabet *)

(** X17. The two replacements of the header segment keep its length, leave no
    ['-'] and no ['_'] behind, and change nothing in a segment that is
    already in the standard base64 alphabet. *)
Theorem url_safe_to_base64_alphabet (s : string) :
  String.length (url_safe_to_base64 s) = String.length s /\
  ~ In "-"%char (list_ascii_of_string (url_safe_to_base64 s)) /\
  ~ In "_"%char (list_ascii_of_string (url_safe_to_base64 s)) /\
  (~ In "-"%char (list_ascii_of_string s) ->
   ~ In "_"%char (list_ascii_of_string s) ->
   url_safe_to_base64 s = s).
Proof.
  induction s as [| c rest (IHlen & IHminus & IHunder & IHsame)]; cbn.
  - repeat split; auto.
  - split; [now rewrite IHlen |].
    destruct (Ascii.eqb_spec c "-") as [-> | Hminus];
      [| destruct (Ascii.eqb_spec c "_") as [-> | Hunder]].
    + split; [intros [H | H]; [discriminate | auto] |].
      split; [intros [H | H]; [discriminate | auto] |].
      intros Hno _. destruct Hno. now left.
    + split; [intros [H | H]; [discriminate | auto] |].
      split; [intros [H | H]; [discriminate | auto] |].
      intros _ Hno. destruct Hno. now left.
    + split; [intros [H | H]; [congruence | auto] |].
      split; [intros [H | H]; [congruence | auto] |].
      intros Hno1 Hno2. f_equal. apply IHsame; intros H; [apply Hno1 | apply Hno2]; now right.
Qed.

(** ** Malformed provider answers *)

(** X18. A [keys] value that passes the emptiness guard but is no array (an
    object keyed by [kid], a number, a string) never verifies: after the
    header was decoded, [keys.find] is no function. *)
Theorem apple_rejects_non_array_keys (w : World) (identityToken : string)
    (response : HttpResponse) (keys header : JSVal) :
  axios_get w apple_keys_url [] = Normal response ->
  js_get (data response) "keys" = Normal keys ->
  keys_usable keys = true ->
  (forall elems, keys <> JArr elems) ->
  List.length (split_dot identityToken) = 3%nat ->
  JSON_parse w (header_json w identityToken) = Normal header ->
  verifyAppleIdToken_try w identityToken =
  ([LogInfo [Lit "Attempting to verify Apple ID token"];
    HttpGet apple_keys_url []],
   Throw (TypeError "keys.find is not a function")) /\
  outcome (verifyAppleIdToken w identityToken) = Throw (Error "Failed to verify Apple token").
Proof.
  intros Hax Hkeys Huse Hnoarr Hlen Hparse.
  assert (keys_find keys header = Throw (TypeError "keys.find is not a function")) as Hfind.
  { destruct keys; try reflexivity. now destruct (Hnoarr elems). }
  assert (verifyAppleIdToken_try w identityToken =
          ([LogInfo [Lit "Attempting to verify Apple ID token"];
            HttpGet apple_keys_url []],
           Throw (TypeError "keys.find is not a function"))) as Htry.
  { apple_to_header Hax Hkeys Huse Hlen. rewrite Hparse. run. rewrite Hfind. reflexivity. }
  split; [exact Htry |].
  unfold verifyAppleIdToken. rewrite guarded_outcome, Htry. reflexivity.
Qed.

(** A key set sent as an object keyed by [kid]. *)
Lemma apple_non_array_keys_witness :
  verifyAppleIdToken_try
    (apple_world (JObj [("k1", JObj [("kid", JStr "k1")])]) (JBool true)) toy_token =
  ([LogInfo [Lit "Attempting to verify Apple ID token"];
    HttpGet apple_keys_url []],
   Throw (TypeError "keys.find is not a function")) /\
  outcome (verifyAppleIdToken
             (apple_world (JObj [("k1", JObj [("kid", JStr "k1")])]) (JBool true)) toy_token)
  = Throw (Error "Failed to verify Apple token").
Proof.
  apply (apple_rejects_non_array_keys
           (apple_world (JObj [("k1", JObj [("kid", JStr "k1")])]) (JBool true)) toy_token
           (mkResponse 200 (JObj [("keys", JObj [("k1", JObj [("kid", JStr "k1")])])]))
           (JObj [("k1", JObj [("kid", JStr "k1")])])
           (JObj [("kid", JStr "k1")])).
  - reflexivity.
  - reflexivity.
  - reflexivity.
  - discriminate.
  - reflexivity.
  - reflexivity.
Defined.

(** X19. A response whose body is [null] or missing: reading [aud] throws, and
    the Google verifier fails without comparing anything. *)
Theorem google_rejects_unreadable_body (w : World) (idToken : string)
    (response : HttpResponse) (error : JSError) :
  axios_get w google_tokeninfo_url [("id_token", idToken)] = Normal response ->
  js_get (data response) "aud" = Throw error ->
  (data response = JNull \/ data response = JUndefined) /\
  verifyGoogleIdToken_try w idToken =
  ([LogInfo [Lit "Attempting to verify Google ID token"];
    HttpGet google_tokeninfo_url [("id_token", idToken)]],
   Throw error) /\
  err_name error = "TypeError" /\
  outcome (verifyGoogleIdToken w idToken) = Throw (Error "Failed to verify Google token").
Proof.
  intros Hax Haud.
  assert (verifyGoogleIdToken_try w idToken =
          ([LogInfo [Lit "Attempting to verify Google ID token"];
            HttpGet google_tokeninfo_url [("id_token", idToken)]],
           Throw error)) as Htry.
  { unfold verifyGoogleIdToken_try, google_tokeninfo_url in *. run.
    rewrite Hax. run. rewrite Haud. reflexivity. }
  split.
  { destruct (data response); cbn in Haud; try discriminate; auto. }
  split; [exact Htry |]. split; [eapply js_get_throw; eassumption |].
  unfold verifyGoogleIdToken. rewrite guarded_outcome, Htry. reflexivity.
Qed.

(** The endpoint answers with the JSON text [null]. *)
Lemma google_unreadable_body_witness :
  (JNull = JNull \/ JNull = JUndefined) /\
  verifyGoogleIdToken_try (google_world ∅ JNull) "header.payload.signature" =
  ([LogInfo [Lit "Attempting to verify Google ID token"];
    HttpGet google_tokeninfo_url [("id_token", "header.payload.signature")]],
   Throw (TypeError "Cannot read properties of null (reading 'aud')")) /\
  err_name (TypeError "Cannot read properties of null (reading 'aud')") = "TypeError" /\
  outcome (verifyGoogleIdToken (google_world ∅ JNull) "header.payload.signature")
  = Throw (Error "Failed to verify Google token").
Proof.
  apply (google_rejects_unreadable_body (google_world ∅ JNull) "header.payload.signature"
           (mkResponse 200 JNull)
           (TypeError "Cannot read properties of null (reading 'aud')")).
  - reflexivity.
  - reflexivity.
Defined.
